(** * Copy lines, crossing lattice and geometry emitter of [qamomile.udm.copyline]

    A shallow embedding of [src/qamomile/udm/copyline.py] together with the
    properties its specification states.  Python integers are unbounded, so
    every integer of the source is a [Z]; a call either returns a value or
    raises, which is the [outcome] type below. *)

From Stdlib Require Import String ZArith List Lia Bool Permutation.
From Stdlib Require DecimalPos.
Import ListNotations.
Open Scope Z_scope.

(* ================================================================== *)
(** ** Outcomes of a Python call *)

Inductive pyexn : Type :=
| IndexError
| TypeError
| ValueError
| OverflowError.

Inductive outcome (A : Type) : Type :=
| Return (a : A)
| Raise (e : pyexn).

Arguments Return {A} a.
Arguments Raise {A} e.

Definition raises {A : Type} (o : outcome A) : Prop :=
  exists e, o = Raise e.

Definition returns {A : Type} (o : outcome A) : Prop :=
  exists a, o = Return a.

(* ================================================================== *)
(** ** External collaborators *)

(** Modelled from the spec: the graph collaborator ([networkx.Graph] in the
    source, which is not part of the repository) is "a simple undirected
    graph (vertex set + edge set, edge existence queryable by an unordered
    pair)".  Only [has_edge] is ever called by the module. *)
Record Graph : Type := mkGraph {
  nodes : list Z;
  edges : list (Z * Z)
}.

Definition edge_matches (u v : Z) (e : Z * Z) : bool :=
  ((fst e =? u) && (snd e =? v)) || ((fst e =? v) && (snd e =? u)).

Definition has_edge (g : Graph) (u v : Z) : bool :=
  existsb (edge_matches u v) (edges g).

Definition has_node (g : Graph) (u : Z) : bool :=
  existsb (Z.eqb u) (nodes g).

Definition number_of_nodes (g : Graph) : nat := length (nodes g).

(** Modelled from the spec: [Node] and [ONE_INSTANCE] come from [.core],
    which is not among the sources.  The spec describes a Node as a
    weighted grid point, integer coordinates (row, col) plus a weight; the
    two-argument constructor call [Node(i, j)] leaves the weight at the
    unit default ("with ONE weight" in the source's comment). *)
Inductive Weight : Type :=
| ONE_INSTANCE
| Numeric (w : Z).

Record Node : Type := mkNode {
  row : Z;
  col : Z;
  weight : Weight
}.

Definition loc (nd : Node) : Z * Z := (row nd, col nd).

(* ================================================================== *)
(** ** Data model *)

Record CopyLine : Type := mkCopyLine {
  vertex : Z;
  vslot : Z;
  hslot : Z;
  vstart : Z;
  vstop : Z;
  hstop : Z
}.

(** [Block]: every field defaults to the sentinel [-1]. *)
Record Block : Type := mkBlock {
  top : Z;
  bottom : Z;
  left : Z;
  right : Z;
  connected : Z
}.

Record CrossingLattice : Type := mkCrossingLattice {
  width : Z;
  height : Z;
  lines : list CopyLine;
  graph : Graph
}.

(** A component of an index tuple: an integer, or an object that does not
    order against integers (a string, [None], a list, ...), on which the
    comparison [1 <= x] raises [TypeError].  Floating-point components
    are outside the model. *)
Inductive pyobj : Type :=
| PyInt (z : Z)
| PyUnordered.

(** The argument of [CrossingLattice.__getitem__] is any Python value; the
    method distinguishes tuples (by length) from everything else.
    [IdxTuple] is a tuple of integers, [IdxInt] an integer, [IdxPair] a
    2-tuple of arbitrary components, [IdxOther] any other object (not a
    tuple, or a tuple of another length). *)
Inductive pyindex : Type :=
| IdxTuple (elts : list Z)
| IdxInt (k : Z)
| IdxPair (a b : pyobj)
| IdxOther.

(* ================================================================== *)
(** ** Crossing lattice: block query *)

(** The four local variables [left], [right], [top], [bottom] of
    [__getitem__]. *)
Record sides : Type := mkSides {
  s_left : Z;
  s_right : Z;
  s_top : Z;
  s_bottom : Z
}.

Definition no_sides : sides := mkSides (-1) (-1) (-1) (-1).

Definition set_top (x : Z) (s : sides) : sides :=
  mkSides (s_left s) (s_right s) x (s_bottom s).
Definition set_bottom (x : Z) (s : sides) : sides :=
  mkSides (s_left s) (s_right s) (s_top s) x.
Definition set_left (x : Z) (s : sides) : sides :=
  mkSides x (s_right s) (s_top s) (s_bottom s).
Definition set_right (x : Z) (s : sides) : sides :=
  mkSides (s_left s) x (s_top s) (s_bottom s).

(** "Check vertical slot": the first [if] of the loop body. *)
Definition scan_vertical (i j : Z) (line : CopyLine) (s : sides) : sides :=
  if vslot line =? j then
    if (vstart line =? vstop line) && (vstop line =? i) then s
    else if vstart line =? i then set_bottom (vertex line) s
    else if vstop line =? i then set_top (vertex line) s
    else if (vstart line <? i) && (i <? vstop line)
         then set_bottom (vertex line) (set_top (vertex line) s)
    else s
  else s.

(** "Check horizontal slot": the second [if] of the loop body. *)
Definition scan_horizontal (i j : Z) (line : CopyLine) (s : sides) : sides :=
  if hslot line =? i then
    if (vslot line =? hstop line) && (hstop line =? j) then s
    else if vslot line =? j then set_right (vertex line) s
    else if hstop line =? j then set_left (vertex line) s
    else if (vslot line <? j) && (j <? hstop line)
         then set_right (vertex line) (set_left (vertex line) s)
    else s
  else s.

Definition scan_line (i j : Z) (s : sides) (line : CopyLine) : sides :=
  scan_horizontal i j line (scan_vertical i j line s).

(** [for line in self.lines: ...] *)
Definition scan (i j : Z) (ls : list CopyLine) (s : sides) : sides :=
  fold_left (scan_line i j) ls s.

Definition pick_h (s : sides) : Z :=
  if negb (s_left s =? -1) then s_left s else s_right s.

Definition pick_v (s : sides) : Z :=
  if negb (s_top s =? -1) then s_top s else s_bottom s.

Definition connectivity (g : Graph) (s : sides) : Z :=
  let h := pick_h s in
  let v := pick_v s in
  if negb (v =? -1) && negb (h =? -1)
  then (if has_edge g h v then 1 else 0)
  else -1.

Definition in_bounds (L : CrossingLattice) (i j : Z) : bool :=
  ((1 <=? i) && (i <=? height L)) && ((1 <=? j) && (j <=? width L)).

Definition block_at (L : CrossingLattice) (i j : Z) : Block :=
  let s := scan i j (lines L) no_sides in
  mkBlock (s_top s) (s_bottom s) (s_left s) (s_right s)
          (connectivity (graph L) s).

Definition __getitem__ (L : CrossingLattice) (indices : pyindex)
  : outcome Block :=
  match indices with
  | IdxTuple [i; j] =>
      if negb (in_bounds L i j) then Raise IndexError
      else Return (block_at L i j)
  | IdxPair a b =>
      (* [1 <= i <= self.height and 1 <= j <= self.width], left to right:
         the column is compared only when the row is in range *)
      match a with
      | PyUnordered => Raise TypeError
      | PyInt i =>
          if (1 <=? i) && (i <=? height L) then
            match b with
            | PyUnordered => Raise TypeError
            | PyInt j =>
                if (1 <=? j) && (j <=? width L)
                then Return (block_at L i j)
                else Raise IndexError
            end
          else Raise IndexError
      end
  | _ => Raise TypeError
  end.

Definition shape (L : CrossingLattice) : Z * Z := (height L, width L).

(* ================================================================== *)
(** ** Line factory *)

(** [enumerate(vertex_order)], with the running index as an integer. *)
Fixpoint enumerate_from (k : Z) (l : list Z) : list (Z * Z) :=
  match l with
  | [] => []
  | v :: l' => (k, v) :: enumerate_from (k + 1) l'
  end.

Definition enumerate (l : list Z) : list (Z * Z) := enumerate_from 0 l.

Definition len (l : list Z) : Z := Z.of_nat (length l).

(** The loop body: the CopyLine built for entry [(i, v)]. *)
Definition diagonal_line (n : Z) (iv : Z * Z) : CopyLine :=
  let (i, v) := iv in
  mkCopyLine v (i + 1) (i + 1) 1 n n.

(** [create_copylines]: the graph argument is received and never read; no
    statement of the body raises. *)
Definition create_copylines (g : Graph) (vertex_order : list Z)
  : outcome (list CopyLine) :=
  let n := len vertex_order in
  let copylines := map (diagonal_line n) (enumerate vertex_order) in
  Return copylines.

(* ================================================================== *)
(** ** Geometry emitter *)

Definition center_location (tc : CopyLine) (padding : Z) : Z * Z :=
  let s := 4 in
  let I := s * (hslot tc - 1) + padding + 2 in
  let J := s * (vslot tc - 1) + padding + 1 in
  (I, J).

Definition node_from_type (node_type : string) (i j w : Z) : Node :=
  if String.eqb node_type "UnWeightedNode"%string
  then mkNode i j ONE_INSTANCE
  else mkNode i j (Numeric w).

(** [range(a, b)]: a, a+1, ..., b-1. *)
Definition range (a b : Z) : list Z :=
  map (fun k => a + Z.of_nat k) (seq 0 (Z.to_nat (b - a))).

(** [range(a, b, -1)]: a, a-1, ..., b+1. *)
Definition range_down (a b : Z) : list Z :=
  map (fun k => a - Z.of_nat k) (seq 0 (Z.to_nat (a - b))).

Definition b2z (b : bool) : Z := if b then 1 else 0.

Definition grow_up (node_type : string) (tc : CopyLine) (I J : Z)
  : list Node :=
  let s := 4 in
  let start := I + s * (vstart tc - hslot tc) + 1 in
  map (fun i => node_from_type node_type i J (1 + b2z (negb (i =? start))))
      (range_down I (start - 1)).

Definition grow_down (node_type : string) (tc : CopyLine) (I J : Z)
  : list Node :=
  let s := 4 in
  let stop := I + s * (vstop tc - hslot tc) - 1 in
  map (fun i =>
         if i =? I then node_from_type node_type (i + 1) (J + 1) 2
         else node_from_type node_type i J (1 + b2z (negb (i =? stop))))
      (range I (stop + 1)).

Definition grow_right (node_type : string) (tc : CopyLine) (I J : Z)
  : list Node :=
  let s := 4 in
  let stop := J + s * (hstop tc - vslot tc) - 1 in
  map (fun j => node_from_type node_type I j (1 + b2z (negb (j =? stop))))
      (range (J + 2) (stop + 1)).

(** The three increments of [nline]. *)
Definition nline_of (tc : CopyLine) : Z :=
  b2z (vstart tc <? hslot tc) + b2z (vstop tc >? hslot tc)
  + b2z (hstop tc >? vslot tc).

Definition copyline_locations (node_type : string) (tc : CopyLine)
  (padding : Z) : list Node :=
  let (I, J) := center_location tc padding in
  grow_up node_type tc I J
  ++ grow_down node_type tc I J
  ++ grow_right node_type tc I J
  ++ [node_from_type node_type I (J + 1) (nline_of tc)].

(* ================================================================== *)
(** ** Vocabulary of the specification *)

(** A field of a block is "set" when it differs from the sentinel. *)
Definition is_set (x : Z) : bool := negb (x =? -1).

Definition block_h (b : Block) : Z :=
  if is_set (left b) then left b else right b.

Definition block_v (b : Block) : Z :=
  if is_set (top b) then top b else bottom b.

(** A line bears vertically on [(i, j)] when one of the three assigning
    branches of the vertical check is taken, horizontally likewise. *)
Definition bears_vertical (i j : Z) (line : CopyLine) : Prop :=
  vslot line = j /\
  ~ (vstart line = vstop line /\ vstop line = i) /\
  (vstart line = i \/ vstop line = i \/ vstart line < i < vstop line).

Definition bears_horizontal (i j : Z) (line : CopyLine) : Prop :=
  hslot line = i /\
  ~ (vslot line = hstop line /\ hstop line = j) /\
  (vslot line = j \/ hstop line = j \/ vslot line < j < hstop line).

(** Validity of a vertex order with respect to a graph. *)
Fixpoint has_dup (l : list Z) : bool :=
  match l with
  | [] => false
  | x :: l' => existsb (Z.eqb x) l' || has_dup l'
  end.

Definition length_mismatch (g : Graph) (order : list Z) : bool :=
  negb (Nat.eqb (length order) (number_of_nodes g)).

Definition has_unknown (g : Graph) (order : list Z) : bool :=
  existsb (fun x => negb (has_node g x)) order.

Definition invalid_order (g : Graph) (order : list Z) : bool :=
  length_mismatch g order || has_unknown g order || has_dup order.

Definition valid_order (g : Graph) (order : list Z) : bool :=
  negb (invalid_order g order).

(** The instance of the specification's concrete scenario. *)
Definition G3 : Graph := mkGraph [0; 1; 2] [(0, 1); (1, 2)].

Definition lines3 : list CopyLine :=
  [ mkCopyLine 0 1 1 1 3 3; mkCopyLine 1 2 2 1 3 3; mkCopyLine 2 3 3 1 3 3 ].

Definition L3 : CrossingLattice := mkCrossingLattice 3 3 lines3 G3.

(** The lattice over the default construction: [n] by [n], holding the
    factory's lines and the graph. *)
Definition default_lattice (g : Graph) (order : list Z)
  : outcome CrossingLattice :=
  match create_copylines g order with
  | Return ls => Return (mkCrossingLattice (len order) (len order) ls g)
  | Raise e => Raise e
  end.

(** The list the factory's loop accumulates. *)
Definition copylines_of (vertex_order : list Z) : list CopyLine :=
  map (diagonal_line (len vertex_order)) (enumerate vertex_order).

(** The lattice [L] with another list of lines. *)
Definition with_lines (L : CrossingLattice) (ls : list CopyLine)
  : CrossingLattice :=
  mkCrossingLattice (width L) (height L) ls (graph L).

(** The directions a line grows in. *)
Definition grown_directions (tc : CopyLine) : list bool :=
  [ vstart tc <? hslot tc; hslot tc <? vstop tc; vslot tc <? hstop tc ].

(** The query at [(i, j)] reports a connected crossing of the lines of
    vertices [x] and [y]: one of them is the block's horizontal vertex,
    the other its vertical vertex, and [connected] is 1. *)
Definition reports_crossing (L : CrossingLattice) (i j x y : Z) : Prop :=
  exists blk : Block,
    __getitem__ L (IdxTuple [i; j]) = Return blk /\
    connected blk = 1 /\
    ((block_h blk = x /\ block_v blk = y) \/
     (block_h blk = y /\ block_v blk = x)).

(** The graph with the single edge between vertices -1 and 0. *)
Definition Gneg : Graph := mkGraph [-1; 0] [(-1, 0)].

Definition Lneg : CrossingLattice :=
  mkCrossingLattice 2 2
    [mkCopyLine (-1) 1 1 1 2 2; mkCopyLine 0 2 2 1 2 2] Gneg.

(** The branches of the loop body that assign each variable: [bottom] in
    the "starting point" and "middle" branches of the vertical check,
    [top] in its "stopping point" and "middle" branches; [right] and
    [left] likewise in the horizontal check. *)
Definition assigns_bottom (i j : Z) (l : CopyLine) : Prop :=
  vslot l = j /\
  ((vstart l = i /\ vstop l <> i) \/ vstart l < i < vstop l).

Definition assigns_top (i j : Z) (l : CopyLine) : Prop :=
  vslot l = j /\
  ((vstop l = i /\ vstart l <> i) \/ vstart l < i < vstop l).

Definition assigns_right (i j : Z) (l : CopyLine) : Prop :=
  hslot l = i /\
  ((vslot l = j /\ hstop l <> j) \/ vslot l < j < hstop l).

Definition assigns_left (i j : Z) (l : CopyLine) : Prop :=
  hslot l = i /\
  ((hstop l = j /\ vslot l <> j) \/ vslot l < j < hstop l).

(** The value [final] a variable holds at the end of the loop, given that
    it held [recorded] when the lines [post] were still to come: either
    it is still [recorded], or one of the lines of [post] assigned it. *)
Definition last_writer (post : list CopyLine) (assigns : CopyLine -> Prop)
  (recorded final : Z) : Prop :=
  final = recorded \/
  exists l, In l post /\ assigns l /\ final = vertex l.

(** Translation of a node by [d] along both axes. *)
Definition translate (d : Z) (nd : Node) : Node :=
  mkNode (row nd + d) (col nd + d) (weight nd).

(** Nodes carrying the half weight 1. *)
Definition is_half (nd : Node) : bool :=
  match weight nd with
  | Numeric 1 => true
  | _ => false
  end.

(** The data model's invariant on one line. *)
Definition well_formed (tc : CopyLine) : Prop :=
  vstart tc <= hslot tc <= vstop tc /\ vslot tc <= hstop tc.

(** The three runs of the emitter, without the center node. *)
Definition runs (node_type : string) (tc : CopyLine) (padding : Z)
  : list Node :=
  let (I, J) := center_location tc padding in
  grow_up node_type tc I J ++ grow_down node_type tc I J
  ++ grow_right node_type tc I J.

(* ================================================================== *)
(** ** Text rendering of blocks and lattices *)

(** A Python string is a sequence of Unicode code points. *)
Definition pystr : Type := list Z.

Definition SPACE : Z := 32.
Definition NEWLINE : Z := 10.
(** U+22C5, the dot of an empty side. *)
Definition DOT : Z := 8901.
(** U+25CF and U+25CB, the connected and the unconnected crossing. *)
Definition FILLED : Z := 9679.
Definition HOLLOW : Z := 9675.

Definition bind {A B : Type} (o : outcome A) (k : A -> outcome B)
  : outcome B :=
  match o with
  | Return a => k a
  | Raise e => Raise e
  end.

(** A comprehension or loop whose body may raise, left to right. *)
Fixpoint mapM {A B : Type} (f : A -> outcome B) (l : list A)
  : outcome (list B) :=
  match l with
  | [] => Return []
  | x :: l' =>
      bind (f x) (fun y =>
      bind (mapM f l') (fun ys => Return (y :: ys)))
  end.

(** [sep.join(parts)] *)
Fixpoint join (sep : pystr) (parts : list pystr) : pystr :=
  match parts with
  | [] => []
  | [p] => p
  | p :: rest => p ++ sep ++ join sep rest
  end.

(** [str(x)] for an integer: decimal digits, with a minus sign. *)
Fixpoint uint_codes (d : Decimal.uint) : pystr :=
  match d with
  | Decimal.Nil => []
  | Decimal.D0 r => 48 :: uint_codes r
  | Decimal.D1 r => 49 :: uint_codes r
  | Decimal.D2 r => 50 :: uint_codes r
  | Decimal.D3 r => 51 :: uint_codes r
  | Decimal.D4 r => 52 :: uint_codes r
  | Decimal.D5 r => 53 :: uint_codes r
  | Decimal.D6 r => 54 :: uint_codes r
  | Decimal.D7 r => 55 :: uint_codes r
  | Decimal.D8 r => 56 :: uint_codes r
  | Decimal.D9 r => 57 :: uint_codes r
  end.

(** The number of decimal digits of [x], sign apart. *)
Definition decimal_digits (x : Z) : nat :=
  match Z.to_int x with
  | Decimal.Pos d => length (uint_codes d)
  | Decimal.Neg d => length (uint_codes d)
  end.

(** The interpreter's default limit on integer to string conversion. *)
Definition INT_MAX_STR_DIGITS : Z := 4300.

(** [str(x)] for an integer: [ValueError] above the digit limit. *)
Definition str_int (x : Z) : outcome pystr :=
  if INT_MAX_STR_DIGITS <? Z.of_nat (decimal_digits x)
  then Raise ValueError
  else Return match Z.to_int x with
              | Decimal.Pos d => uint_codes d
              | Decimal.Neg d => 45 :: uint_codes d
              end.

(** [chr(n)]: [OverflowError] when [n] does not fit a C int, [ValueError]
    when it fits but lies outside [range(0x110000)]. *)
Definition chr (n : Z) : outcome pystr :=
  if (n <? -2147483648) || (2147483647 <? n) then Raise OverflowError
  else if (0 <=? n) && (n <? 1114112) then Return [n]
  else Raise ValueError.

(** [ord('a')] *)
Definition ord_a : Z := 97.

(** [Block._symbol] *)
Definition _symbol (x : Z) : outcome pystr :=
  if x =? -1 then Return [DOT]
  else if x <? 10 then str_int x
  else chr (ord_a + (x - 10)).

(** The code point of a one-character symbol. *)
Definition symbol_code (x : Z) : Z :=
  if x =? -1 then DOT else if x <? 10 then 48 + x else 87 + x.

Definition conn_symbol (b : Block) : Z :=
  if connected b =? -1 then DOT
  else if connected b =? 1 then FILLED else HOLLOW.

(** [Block.get_row_strings]: the three f-strings, evaluated in order. *)
Definition get_row_strings (b : Block) : outcome (list pystr) :=
  bind (_symbol (top b)) (fun t =>
  let row0 := [SPACE; DOT; SPACE] ++ t ++ [SPACE; DOT] in
  bind (_symbol (left b)) (fun l =>
  bind (_symbol (right b)) (fun r =>
  let row1 := [SPACE] ++ l ++ [SPACE; conn_symbol b; SPACE] ++ r in
  bind (_symbol (bottom b)) (fun bo =>
  let row2 := [SPACE; DOT; SPACE] ++ bo ++ [SPACE; DOT] in
  Return [row0; row1; row2])))).

(** [Block.__str__] *)
Definition Block__str__ (b : Block) : outcome pystr :=
  bind (get_row_strings b) (fun rows => Return (join [NEWLINE] rows)).

(** [rows[k]] on a list. *)
Definition list_index (rows : list pystr) (k : Z) : outcome pystr :=
  let n := Z.of_nat (length rows) in
  if (k <? - n) || (n <=? k) then Raise IndexError
  else Return (nth (Z.to_nat (if k <? 0 then k + n else k)) rows []).

(** One text row of the lattice: sub-row [k] of every block of row [i]. *)
Definition lattice_text_row (L : CrossingLattice) (i k : Z)
  : outcome pystr :=
  bind (mapM (fun j =>
                bind (__getitem__ L (IdxTuple [i; j])) (fun block =>
                bind (get_row_strings block) (fun rows =>
                list_index rows k)))
             (range 1 (width L + 1)))
       (fun row => Return (join [SPACE] row)).

(** [CrossingLattice.__str__] *)
Definition CrossingLattice__str__ (L : CrossingLattice) : outcome pystr :=
  bind (mapM (fun i => mapM (lattice_text_row L i) (range 0 3))
             (range 1 (height L + 1)))
       (fun result => Return (join [NEWLINE] (concat result))).

(** Values for which [_symbol] raises: those whose letter leaves the
    Unicode range, and the negative ones too long for [str]. *)
Definition too_long (x : Z) : Prop :=
  INT_MAX_STR_DIGITS < Z.of_nat (decimal_digits x).

Definition no_symbol (x : Z) : Prop :=
  1114024 < x \/ (x < -1 /\ too_long x).

(** Sides and vertices that [_symbol] draws with one character. *)
Definition printable (x : Z) : Prop := -1 <= x <= 1114024.

Definition count_newlines (s : pystr) : nat := count_occ Z.eq_dec s NEWLINE.

(** A piece of text of [m] code points without line break. *)
Definition flat_text (m : nat) (s : pystr) : Prop :=
  length s = m /\ count_newlines s = 0%nat.

(* ================================================================== *)
(** ** Lemmas on the scan of the lines *)

Ltac case_tests :=
  repeat match goal with
    | |- context [Z.eqb ?a ?b] => destruct (Z.eqb_spec a b)
    | |- context [Z.ltb ?a ?b] => destruct (Z.ltb_spec a b)
    | |- context [Z.leb ?a ?b] => destruct (Z.leb_spec a b)
    end; simpl.

Section Scan.

Variables i j : Z.

Lemma scan_nil (s : sides) : scan i j [] s = s.
Proof. reflexivity. Qed.

Lemma scan_cons (line : CopyLine) (ls : list CopyLine) (s : sides) :
  scan i j (line :: ls) s = scan i j ls (scan_line i j s line).
Proof. reflexivity. Qed.

Lemma scan_app (l1 l2 : list CopyLine) (s : sides) :
  scan i j (l1 ++ l2) s = scan i j l2 (scan i j l1 s).
Proof. unfold scan. apply fold_left_app. Qed.

(** The vertical check writes [top]/[bottom] only, the horizontal check
    [left]/[right] only. *)
Lemma scan_vertical_lr (line : CopyLine) (s : sides) :
  s_left (scan_vertical i j line s) = s_left s /\
  s_right (scan_vertical i j line s) = s_right s.
Proof. unfold scan_vertical. case_tests; auto. Qed.

Lemma scan_horizontal_tb (line : CopyLine) (s : sides) :
  s_top (scan_horizontal i j line s) = s_top s /\
  s_bottom (scan_horizontal i j line s) = s_bottom s.
Proof. unfold scan_horizontal. case_tests; auto. Qed.

Lemma scan_line_tb (line : CopyLine) (s : sides) :
  s_top (scan_line i j s line) = s_top (scan_vertical i j line s) /\
  s_bottom (scan_line i j s line) = s_bottom (scan_vertical i j line s).
Proof. unfold scan_line. apply scan_horizontal_tb. Qed.

Lemma scan_line_lr (line : CopyLine) (s : sides) :
  s_left (scan_line i j s line) = s_left (scan_horizontal i j line s) /\
  s_right (scan_line i j s line) = s_right (scan_horizontal i j line s).
Proof.
  unfold scan_line.
  destruct (scan_vertical_lr line s) as [Hl Hr].
  unfold scan_horizontal. case_tests; auto.
Qed.

(** Provenance of one step: a written field holds the vertex of a line
    that bears on the coordinate. *)
Lemma scan_vertical_origin (line : CopyLine) (s : sides) :
  (s_top (scan_vertical i j line s) = s_top s \/
   bears_vertical i j line /\
   s_top (scan_vertical i j line s) = vertex line) /\
  (s_bottom (scan_vertical i j line s) = s_bottom s \/
   bears_vertical i j line /\
   s_bottom (scan_vertical i j line s) = vertex line).
Proof.
  unfold scan_vertical, bears_vertical.
  case_tests; split; auto; right; repeat split; auto; lia.
Qed.

Lemma scan_horizontal_origin (line : CopyLine) (s : sides) :
  (s_left (scan_horizontal i j line s) = s_left s \/
   bears_horizontal i j line /\
   s_left (scan_horizontal i j line s) = vertex line) /\
  (s_right (scan_horizontal i j line s) = s_right s \/
   bears_horizontal i j line /\
   s_right (scan_horizontal i j line s) = vertex line).
Proof.
  unfold scan_horizontal, bears_horizontal.
  case_tests; split; auto; right; repeat split; auto; lia.
Qed.

(** Provenance over the whole loop. *)
Lemma scan_origin (ls : list CopyLine) : forall s : sides,
  (s_top (scan i j ls s) = s_top s \/
   exists line, In line ls /\ bears_vertical i j line /\
                s_top (scan i j ls s) = vertex line) /\
  (s_bottom (scan i j ls s) = s_bottom s \/
   exists line, In line ls /\ bears_vertical i j line /\
                s_bottom (scan i j ls s) = vertex line) /\
  (s_left (scan i j ls s) = s_left s \/
   exists line, In line ls /\ bears_horizontal i j line /\
                s_left (scan i j ls s) = vertex line) /\
  (s_right (scan i j ls s) = s_right s \/
   exists line, In line ls /\ bears_horizontal i j line /\
                s_right (scan i j ls s) = vertex line).
Proof.
  induction ls as [|line ls IH]; intros s.
  - rewrite scan_nil. auto.
  - rewrite scan_cons.
    destruct (IH (scan_line i j s line)) as (Ht & Hb & Hl & Hr).
    destruct (scan_line_tb line s) as [Et Eb].
    destruct (scan_line_lr line s) as [El Er].
    destruct (scan_vertical_origin line s) as [Vt Vb].
    destruct (scan_horizontal_origin line s) as [Hhl Hhr].
    repeat split.
    + destruct Ht as [Ht | (l0 & Hin & Hbv & Hv)].
      * rewrite Ht, Et. destruct Vt as [Vt | [Vt1 Vt2]]; [left; auto|].
        right. exists line. simpl; auto.
      * right. exists l0. simpl; auto.
    + destruct Hb as [Hb | (l0 & Hin & Hbv & Hv)].
      * rewrite Hb, Eb. destruct Vb as [Vb | [Vb1 Vb2]]; [left; auto|].
        right. exists line. simpl; auto.
      * right. exists l0. simpl; auto.
    + destruct Hl as [Hl | (l0 & Hin & Hbh & Hv)].
      * rewrite Hl, El. destruct Hhl as [Hhl | [Hh1 Hh2]]; [left; auto|].
        right. exists line. simpl; auto.
      * right. exists l0. simpl; auto.
    + destruct Hr as [Hr | (l0 & Hin & Hbh & Hv)].
      * rewrite Hr, Er. destruct Hhr as [Hhr | [Hh1 Hh2]]; [left; auto|].
        right. exists line. simpl; auto.
      * right. exists l0. simpl; auto.
Qed.

(** The vertical pair of the result depends on the vertical pair of the
    initial state only, the horizontal pair likewise. *)
Lemma scan_vertical_ext (line : CopyLine) (s1 s2 : sides) :
  s_top s1 = s_top s2 -> s_bottom s1 = s_bottom s2 ->
  s_top (scan_vertical i j line s1) = s_top (scan_vertical i j line s2) /\
  s_bottom (scan_vertical i j line s1)
    = s_bottom (scan_vertical i j line s2).
Proof. intros Ht Hb. unfold scan_vertical. case_tests; auto. Qed.

Lemma scan_horizontal_ext (line : CopyLine) (s1 s2 : sides) :
  s_left s1 = s_left s2 -> s_right s1 = s_right s2 ->
  s_left (scan_horizontal i j line s1)
    = s_left (scan_horizontal i j line s2) /\
  s_right (scan_horizontal i j line s1)
    = s_right (scan_horizontal i j line s2).
Proof. intros Hl Hr. unfold scan_horizontal. case_tests; auto. Qed.

Lemma scan_tb_ext (ls : list CopyLine) : forall s1 s2 : sides,
  s_top s1 = s_top s2 -> s_bottom s1 = s_bottom s2 ->
  s_top (scan i j ls s1) = s_top (scan i j ls s2) /\
  s_bottom (scan i j ls s1) = s_bottom (scan i j ls s2).
Proof.
  induction ls as [|line ls IH]; intros s1 s2 Ht Hb; [auto|].
  rewrite !scan_cons. apply IH.
  - destruct (scan_line_tb line s1) as [-> _].
    destruct (scan_line_tb line s2) as [-> _].
    apply scan_vertical_ext; assumption.
  - destruct (scan_line_tb line s1) as [_ ->].
    destruct (scan_line_tb line s2) as [_ ->].
    apply scan_vertical_ext; assumption.
Qed.

Lemma scan_lr_ext (ls : list CopyLine) : forall s1 s2 : sides,
  s_left s1 = s_left s2 -> s_right s1 = s_right s2 ->
  s_left (scan i j ls s1) = s_left (scan i j ls s2) /\
  s_right (scan i j ls s1) = s_right (scan i j ls s2).
Proof.
  induction ls as [|line ls IH]; intros s1 s2 Hl Hr; [auto|].
  rewrite !scan_cons.
  destruct (scan_vertical_lr line s1) as [Vl1 Vr1].
  destruct (scan_vertical_lr line s2) as [Vl2 Vr2].
  apply IH; unfold scan_line.
  - apply scan_horizontal_ext; congruence.
  - apply scan_horizontal_ext; congruence.
Qed.

(** Lines in another column leave the vertical pair alone; lines in
    another row leave the horizontal pair alone. *)
Lemma scan_other_columns (ls : list CopyLine) : forall s : sides,
  Forall (fun l => vslot l <> j) ls ->
  s_top (scan i j ls s) = s_top s /\
  s_bottom (scan i j ls s) = s_bottom s.
Proof.
  induction ls as [|line ls IH]; intros s HF; [auto|].
  inversion HF as [|? ? Hne HF']; subst.
  rewrite scan_cons.
  destruct (IH (scan_line i j s line) HF') as [-> ->].
  destruct (scan_line_tb line s) as [-> ->].
  unfold scan_vertical.
  destruct (Z.eqb_spec (vslot line) j); [contradiction | auto].
Qed.

Lemma scan_other_rows (ls : list CopyLine) : forall s : sides,
  Forall (fun l => hslot l <> i) ls ->
  s_left (scan i j ls s) = s_left s /\
  s_right (scan i j ls s) = s_right s.
Proof.
  induction ls as [|line ls IH]; intros s HF; [auto|].
  inversion HF as [|? ? Hne HF']; subst.
  rewrite scan_cons.
  destruct (IH (scan_line i j s line) HF') as [-> ->].
  destruct (scan_line_lr line s) as [-> ->].
  unfold scan_horizontal.
  destruct (Z.eqb_spec (hslot line) i); [contradiction | auto].
Qed.

End Scan.

(* ================================================================== *)
(** ** The block query *)

Lemma in_bounds_iff (L : CrossingLattice) (i j : Z) :
  in_bounds L i j = true <-> (1 <= i <= height L /\ 1 <= j <= width L).
Proof.
  unfold in_bounds. rewrite !andb_true_iff, !Z.leb_le. tauto.
Qed.

Lemma getitem_in_bounds (L : CrossingLattice) (i j : Z) :
  in_bounds L i j = true ->
  __getitem__ L (IdxTuple [i; j]) = Return (block_at L i j).
Proof. intros H. simpl. rewrite H. reflexivity. Qed.


Lemma block_h_at (L : CrossingLattice) (i j : Z) :
  block_h (block_at L i j) = pick_h (scan i j (lines L) no_sides).
Proof. reflexivity. Qed.

Lemma block_v_at (L : CrossingLattice) (i j : Z) :
  block_v (block_at L i j) = pick_v (scan i j (lines L) no_sides).
Proof. reflexivity. Qed.

Lemma is_set_true (x : Z) : is_set x = true <-> x <> -1.
Proof.
  unfold is_set. rewrite negb_true_iff, Z.eqb_neq. tauto.
Qed.

Lemma is_set_false (x : Z) : is_set x = false <-> x = -1.
Proof.
  unfold is_set. rewrite negb_false_iff, Z.eqb_eq. tauto.
Qed.

(** C1.  For an in-bounds query the returned block's [connected] field
    follows from its four side fields: with [h] the left field if set and
    the right one otherwise, and [v] the top field if set and the bottom
    one otherwise, [connected] is 1 or 0 according to [has_edge h v] when
    both are set and the sentinel -1 when either is unset.  Hence a
    non-sentinel [connected] needs a line bearing horizontally and a line
    bearing vertically on the coordinate. *)
Theorem C1_connected_rule (L : CrossingLattice) (i j : Z)
  (Hin : 1 <= i <= height L /\ 1 <= j <= width L) :
  exists blk : Block,
    __getitem__ L (IdxTuple [i; j]) = Return blk /\
    (is_set (block_h blk) = true -> is_set (block_v blk) = true ->
     connected blk = if has_edge (graph L) (block_h blk) (block_v blk)
                     then 1 else 0) /\
    (is_set (block_h blk) = false \/ is_set (block_v blk) = false ->
     connected blk = -1) /\
    (connected blk <> -1 ->
     (exists line, In line (lines L) /\ bears_horizontal i j line) /\
     (exists line, In line (lines L) /\ bears_vertical i j line)).
Proof.
  exists (block_at L i j).
  split; [apply getitem_in_bounds, in_bounds_iff, Hin|].
  rewrite block_h_at, block_v_at.
  set (s := scan i j (lines L) no_sides).
  assert (Hconn : connected (block_at L i j) = connectivity (graph L) s)
    by reflexivity.
  rewrite Hconn. unfold connectivity, is_set.
  split; [|split].
  - intros Hh Hv. rewrite Hv, Hh. reflexivity.
  - intros [Hh | Hv].
    + rewrite Hh, andb_false_r. reflexivity.
    + rewrite Hv. reflexivity.
  - intros Hne.
    destruct (negb (pick_v s =? -1)) eqn:Hv;
      destruct (negb (pick_h s =? -1)) eqn:Hh; simpl in Hne;
      try congruence.
    apply negb_true_iff, Z.eqb_neq in Hv, Hh.
    destruct (scan_origin i j (lines L) no_sides)
      as (Ht & Hb & Hl & Hr).
    fold s in Ht, Hb, Hl, Hr. simpl in Ht, Hb, Hl, Hr.
    split.
    + unfold pick_h in Hh.
      destruct (negb (s_left s =? -1)) eqn:E.
      * destruct Hl as [Hl | (l0 & Hl0 & Hbh & _)];
          [congruence | eauto].
      * destruct Hr as [Hr | (l0 & Hl0 & Hbh & _)];
          [congruence | eauto].
    + unfold pick_v in Hv.
      destruct (negb (s_top s =? -1)) eqn:E.
      * destruct Ht as [Ht | (l0 & Hl0 & Hbv & _)];
          [congruence | eauto].
      * destruct Hb as [Hb | (l0 & Hl0 & Hbv & _)];
          [congruence | eauto].
Qed.

Lemma C1_connected_rule_witness :
  exists blk : Block,
    __getitem__ L3 (IdxTuple [1; 2]) = Return blk /\
    (is_set (block_h blk) = true -> is_set (block_v blk) = true ->
     connected blk = if has_edge (graph L3) (block_h blk) (block_v blk)
                     then 1 else 0) /\
    (is_set (block_h blk) = false \/ is_set (block_v blk) = false ->
     connected blk = -1) /\
    (connected blk <> -1 ->
     (exists line, In line (lines L3) /\ bears_horizontal 1 2 line) /\
     (exists line, In line (lines L3) /\ bears_vertical 1 2 line)).
Proof. apply (C1_connected_rule L3 1 2). simpl. lia. Defined.



(* ================================================================== *)
(** ** The line factory *)

Lemma enumerate_from_length (l : list Z) : forall k : Z,
  length (enumerate_from k l) = length l.
Proof.
  induction l as [|v l IH]; intros k; simpl; [reflexivity|].
  now rewrite IH.
Qed.

Lemma enumerate_from_nth (l : list Z) : forall (k : Z) (i : nat) (v : Z),
  nth_error l i = Some v ->
  nth_error (enumerate_from k l) i = Some (k + Z.of_nat i, v).
Proof.
  induction l as [|x l IH]; intros k i v H.
  - destruct i; discriminate.
  - destruct i as [|i]; simpl in *.
    + inversion H; subst. now rewrite Z.add_0_r.
    + rewrite (IH (k + 1) i v H). f_equal. f_equal. lia.
Qed.

Lemma create_copylines_returns (g : Graph) (vertex_order : list Z) :
  create_copylines g vertex_order = Return (copylines_of vertex_order).
Proof. reflexivity. Qed.

Lemma copylines_of_length (vertex_order : list Z) :
  length (copylines_of vertex_order) = length vertex_order.
Proof.
  unfold copylines_of, enumerate.
  now rewrite length_map, enumerate_from_length.
Qed.

Lemma copylines_of_nth (vertex_order : list Z) (i : nat) (v : Z) :
  nth_error vertex_order i = Some v ->
  nth_error (copylines_of vertex_order) i
  = Some (mkCopyLine v (Z.of_nat i + 1) (Z.of_nat i + 1) 1
                     (len vertex_order) (len vertex_order)).
Proof.
  intros H. unfold copylines_of, enumerate.
  rewrite nth_error_map, (enumerate_from_nth _ 0 i v H). reflexivity.
Qed.

Lemma valid_order_length (g : Graph) (order : list Z) :
  valid_order g order = true -> length order = number_of_nodes g.
Proof.
  unfold valid_order, invalid_order, length_mismatch.
  rewrite negb_true_iff, !orb_false_iff, negb_false_iff, Nat.eqb_eq.
  tauto.
Qed.

Lemma has_dup_false_NoDup (l : list Z) : has_dup l = false -> NoDup l.
Proof.
  induction l as [|x l IH]; simpl; intros H; [constructor|].
  apply orb_false_iff in H. destruct H as [Hx Hl].
  constructor; [|auto].
  intros Hin.
  assert (existsb (Z.eqb x) l = true) as E.
  { apply existsb_exists. exists x. split; [assumption | apply Z.eqb_refl]. }
  congruence.
Qed.

Lemma valid_order_NoDup (g : Graph) (order : list Z) :
  valid_order g order = true -> NoDup order.
Proof.
  unfold valid_order, invalid_order.
  rewrite negb_true_iff, !orb_false_iff.
  intros [_ H]. now apply has_dup_false_NoDup.
Qed.

(** C2 (as the code has it).  The factory validates nothing: for every
    graph and every sequence, valid order or not, the call returns a list
    with one CopyLine per element of the sequence and never raises. *)
Theorem C2_no_validation (g : Graph) (vertex_order : list Z) :
  (exists ls : list CopyLine,
     create_copylines g vertex_order = Return ls /\
     length ls = length vertex_order) /\
  ~ raises (create_copylines g vertex_order).
Proof.
  split.
  - exists (copylines_of vertex_order).
    split; [reflexivity | apply copylines_of_length].
  - intros [e He]. discriminate He.
Qed.

(** C2 fails as stated: a sequence of the wrong length, one with a vertex
    that is not in the graph and one with a duplicate are all accepted. *)
Lemma C2_invalid_orders_accepted :
  (length_mismatch G3 [0] = true /\
   invalid_order G3 [0] = true /\
   create_copylines G3 [0] = Return [mkCopyLine 0 1 1 1 1 1]) /\
  (has_unknown G3 [0; 1; 7] = true /\
   invalid_order G3 [0; 1; 7] = true /\
   returns (create_copylines G3 [0; 1; 7])) /\
  (has_dup [0; 1; 1] = true /\
   invalid_order G3 [0; 1; 1] = true /\
   returns (create_copylines G3 [0; 1; 1])) /\
  ~ (forall (g : Graph) (order : list Z),
       invalid_order g order = true -> raises (create_copylines g order)).
Proof.
  repeat split; try reflexivity; try (eexists; reflexivity).
  intros H. destruct (H G3 [0] eq_refl) as [e He]. discriminate He.
Qed.

(** C5.  For a valid order of a graph with [n] vertices the factory
    returns one CopyLine per vertex, in the order of the sequence: the
    entry at 0-based index [i] carries the [i]-th vertex, has
    [vslot = hslot = i + 1], [vstart = 1] and [vstop = hstop = n]. *)
Theorem C5_diagonal_full_span (g : Graph) (vertex_order : list Z)
  (Hvalid : valid_order g vertex_order = true) :
  let n := Z.of_nat (number_of_nodes g) in
  exists ls : list CopyLine,
    create_copylines g vertex_order = Return ls /\
    length ls = number_of_nodes g /\
    map vertex ls = vertex_order /\
    forall (i : nat) (v : Z),
      nth_error vertex_order i = Some v ->
      nth_error ls i
      = Some (mkCopyLine v (Z.of_nat i + 1) (Z.of_nat i + 1) 1 n n).
Proof.
  intros n. pose proof (valid_order_length g vertex_order Hvalid) as Hlen.
  exists (copylines_of vertex_order).
  split; [reflexivity|]. split; [|split].
  - now rewrite copylines_of_length.
  - apply nth_error_ext. intros i. rewrite nth_error_map.
    destruct (nth_error vertex_order i) as [v|] eqn:E.
    + now rewrite (copylines_of_nth _ _ _ E).
    + apply nth_error_None in E.
      rewrite <- copylines_of_length in E.
      apply nth_error_None in E. now rewrite E.
  - intros i v Hi. rewrite (copylines_of_nth _ _ _ Hi).
    unfold n, len. now rewrite Hlen.
Qed.

Lemma C5_diagonal_full_span_witness :
  exists ls : list CopyLine,
    create_copylines G3 [0; 1; 2] = Return ls /\
    length ls = number_of_nodes G3 /\
    map vertex ls = [0; 1; 2] /\
    forall (i : nat) (v : Z),
      nth_error [0; 1; 2] i = Some v ->
      nth_error ls i
      = Some (mkCopyLine v (Z.of_nat i + 1) (Z.of_nat i + 1) 1 3 3).
Proof. apply (C5_diagonal_full_span G3 [0; 1; 2]). reflexivity. Defined.

(** C10.  The factory's result is the same for any two graphs: it is a
    function of the vertex-order sequence alone. *)
Theorem C10_graph_irrelevant (vertex_order : list Z) (g1 g2 : Graph) :
  create_copylines g1 vertex_order = create_copylines g2 vertex_order.
Proof.
  rewrite (create_copylines_returns g1), (create_copylines_returns g2).
  reflexivity.
Qed.

(* ================================================================== *)
(** ** The three-vertex path scenario *)

(** C3 (as the code has it).  On the path graph 0 - 1 - 2 with order
    [0; 1; 2] the factory yields lines at slots (1,1), (2,2), (3,3), each
    with [vstart = 1], [vstop = 3], [hstop = 3].  The query at (2,2) sees
    line 1 alone, on top, bottom and right, and reports [connected = 0]
    (touching, not connected), since [has_edge 1 1] is false.  The pairs
    (0,1) and (1,2) report [connected = 1] at (1,2) and (2,3). *)
Theorem C3_path_scenario :
  create_copylines G3 [0; 1; 2] = Return lines3 /\
  default_lattice G3 [0; 1; 2] = Return L3 /\
  __getitem__ L3 (IdxTuple [2; 2]) = Return (mkBlock 1 1 (-1) 1 0) /\
  __getitem__ L3 (IdxTuple [1; 2]) = Return (mkBlock (-1) 1 0 0 1) /\
  __getitem__ L3 (IdxTuple [2; 3]) = Return (mkBlock 2 2 1 (-1) 1).
Proof. repeat split. Qed.

(** C3 fails as stated: the block at (2,2) does not carry the
    not-applicable sentinel. *)
Lemma C3_diagonal_block_is_applicable :
  ~ (exists blk : Block,
       __getitem__ L3 (IdxTuple [2; 2]) = Return blk /\
       connected blk = -1).
Proof.
  intros (blk & Hq & Hc).
  vm_compute in Hq. inversion Hq; subst. discriminate Hc.
Qed.

(* ================================================================== *)
(** ** Contribution of one line to a block *)

Section Contribution.

Variables i j : Z.
Variable line : CopyLine.

(** The four outcomes of the vertical check, one per branch. *)
Lemma scan_vertical_degenerate (s : sides) :
  vstart line = i -> vstop line = i -> scan_vertical i j line s = s.
Proof.
  intros H1 H2. unfold scan_vertical. case_tests; try reflexivity; lia.
Qed.

Lemma scan_vertical_start (s : sides) :
  vslot line = j -> vstart line = i -> vstop line <> i ->
  scan_vertical i j line s = set_bottom (vertex line) s.
Proof.
  intros H0 H1 H2. unfold scan_vertical.
  case_tests; try reflexivity; lia.
Qed.

Lemma scan_vertical_stop (s : sides) :
  vslot line = j -> vstop line = i -> vstart line <> i ->
  scan_vertical i j line s = set_top (vertex line) s.
Proof.
  intros H0 H1 H2. unfold scan_vertical.
  case_tests; try reflexivity; lia.
Qed.

Lemma scan_vertical_middle (s : sides) :
  vslot line = j -> vstart line < i < vstop line ->
  scan_vertical i j line s
  = set_bottom (vertex line) (set_top (vertex line) s).
Proof.
  intros H0 H1. unfold scan_vertical.
  case_tests; try reflexivity; lia.
Qed.

Lemma scan_vertical_off (s : sides) :
  vslot line <> j \/
  (vstart line <> i /\ vstop line <> i /\ ~ vstart line < i < vstop line) ->
  scan_vertical i j line s = s.
Proof.
  intros H. unfold scan_vertical. case_tests; try reflexivity; lia.
Qed.

(** The mirror outcomes of the horizontal check. *)
Lemma scan_horizontal_degenerate (s : sides) :
  vslot line = j -> hstop line = j -> scan_horizontal i j line s = s.
Proof.
  intros H1 H2. unfold scan_horizontal.
  case_tests; try reflexivity; lia.
Qed.

Lemma scan_horizontal_start (s : sides) :
  hslot line = i -> vslot line = j -> hstop line <> j ->
  scan_horizontal i j line s = set_right (vertex line) s.
Proof.
  intros H0 H1 H2. unfold scan_horizontal.
  case_tests; try reflexivity; lia.
Qed.

Lemma scan_horizontal_stop (s : sides) :
  hslot line = i -> hstop line = j -> vslot line <> j ->
  scan_horizontal i j line s = set_left (vertex line) s.
Proof.
  intros H0 H1 H2. unfold scan_horizontal.
  case_tests; try reflexivity; lia.
Qed.

Lemma scan_horizontal_middle (s : sides) :
  hslot line = i -> vslot line < j < hstop line ->
  scan_horizontal i j line s
  = set_right (vertex line) (set_left (vertex line) s).
Proof.
  intros H0 H1. unfold scan_horizontal.
  case_tests; try reflexivity; lia.
Qed.

Lemma scan_horizontal_off (s : sides) :
  hslot line <> i \/
  (vslot line <> j /\ hstop line <> j /\ ~ vslot line < j < hstop line) ->
  scan_horizontal i j line s = s.
Proof.
  intros H. unfold scan_horizontal. case_tests; try reflexivity; lia.
Qed.

Variables pre post : list CopyLine.

(** The vertical pair of the final state in terms of the state reached
    before [line], when no later line shares the column. *)
Lemma scan_split_tb :
  Forall (fun l => vslot l <> j) post ->
  s_top (scan i j (pre ++ line :: post) no_sides)
  = s_top (scan_vertical i j line (scan i j pre no_sides)) /\
  s_bottom (scan i j (pre ++ line :: post) no_sides)
  = s_bottom (scan_vertical i j line (scan i j pre no_sides)).
Proof.
  intros HF. rewrite scan_app, scan_cons.
  destruct (scan_other_columns i j post
              (scan_line i j (scan i j pre no_sides) line) HF)
    as [-> ->].
  apply scan_line_tb.
Qed.

Lemma scan_split_lr :
  Forall (fun l => hslot l <> i) post ->
  s_left (scan i j (pre ++ line :: post) no_sides)
  = s_left (scan_horizontal i j line (scan i j pre no_sides)) /\
  s_right (scan i j (pre ++ line :: post) no_sides)
  = s_right (scan_horizontal i j line (scan i j pre no_sides)).
Proof.
  intros HF. rewrite scan_app, scan_cons.
  destruct (scan_other_rows i j post
              (scan_line i j (scan i j pre no_sides) line) HF)
    as [-> ->].
  destruct (scan_line_lr i j line (scan i j pre no_sides)) as [-> ->].
  auto.
Qed.

Lemma scan_without_tb :
  Forall (fun l => vslot l <> j) post ->
  s_top (scan i j (pre ++ post) no_sides)
  = s_top (scan i j pre no_sides) /\
  s_bottom (scan i j (pre ++ post) no_sides)
  = s_bottom (scan i j pre no_sides).
Proof. intros HF. rewrite scan_app. now apply scan_other_columns. Qed.

Lemma scan_without_lr :
  Forall (fun l => hslot l <> i) post ->
  s_left (scan i j (pre ++ post) no_sides)
  = s_left (scan i j pre no_sides) /\
  s_right (scan i j (pre ++ post) no_sides)
  = s_right (scan i j pre no_sides).
Proof. intros HF. rewrite scan_app. now apply scan_other_rows. Qed.

(** A line that writes neither field of a pair can be dropped from the
    list without changing that pair. *)
Lemma scan_drop_tb :
  (forall s, scan_vertical i j line s = s) ->
  s_top (scan i j (pre ++ line :: post) no_sides)
  = s_top (scan i j (pre ++ post) no_sides) /\
  s_bottom (scan i j (pre ++ line :: post) no_sides)
  = s_bottom (scan i j (pre ++ post) no_sides).
Proof.
  intros Hid. rewrite !scan_app, scan_cons.
  apply scan_tb_ext.
  - destruct (scan_line_tb i j line (scan i j pre no_sides)) as [-> _].
    now rewrite Hid.
  - destruct (scan_line_tb i j line (scan i j pre no_sides)) as [_ ->].
    now rewrite Hid.
Qed.

Lemma scan_drop_lr :
  (forall s, scan_horizontal i j line s = s) ->
  s_left (scan i j (pre ++ line :: post) no_sides)
  = s_left (scan i j (pre ++ post) no_sides) /\
  s_right (scan i j (pre ++ line :: post) no_sides)
  = s_right (scan i j (pre ++ post) no_sides).
Proof.
  intros Hid. rewrite !scan_app, scan_cons.
  destruct (scan_vertical_lr i j line (scan i j pre no_sides))
    as [Vl Vr].
  apply scan_lr_ext; unfold scan_line; rewrite Hid; assumption.
Qed.

End Contribution.

Lemma block_at_sides (L : CrossingLattice) (i j : Z) :
  top (block_at L i j) = s_top (scan i j (lines L) no_sides) /\
  bottom (block_at L i j) = s_bottom (scan i j (lines L) no_sides) /\
  left (block_at L i j) = s_left (scan i j (lines L) no_sides) /\
  right (block_at L i j) = s_right (scan i j (lines L) no_sides).
Proof. repeat split. Qed.

Lemma block_at_with_lines (L : CrossingLattice) (ls : list CopyLine)
  (i j : Z) :
  top (block_at (with_lines L ls) i j) = s_top (scan i j ls no_sides) /\
  bottom (block_at (with_lines L ls) i j)
  = s_bottom (scan i j ls no_sides) /\
  left (block_at (with_lines L ls) i j) = s_left (scan i j ls no_sides) /\
  right (block_at (with_lines L ls) i j)
  = s_right (scan i j ls no_sides).
Proof. repeat split. Qed.

Section Writers.

Variables i j : Z.

(** One iteration either leaves a variable alone or takes one of the
    branches that assign it. *)
Lemma scan_line_writes (l : CopyLine) (s : sides) :
  (s_top (scan_line i j s l) = s_top s \/
   assigns_top i j l /\ s_top (scan_line i j s l) = vertex l) /\
  (s_bottom (scan_line i j s l) = s_bottom s \/
   assigns_bottom i j l /\ s_bottom (scan_line i j s l) = vertex l) /\
  (s_left (scan_line i j s l) = s_left s \/
   assigns_left i j l /\ s_left (scan_line i j s l) = vertex l) /\
  (s_right (scan_line i j s l) = s_right s \/
   assigns_right i j l /\ s_right (scan_line i j s l) = vertex l).
Proof.
  destruct (scan_line_tb i j l s) as [-> ->].
  destruct (scan_line_lr i j l s) as [-> ->].
  unfold scan_vertical, scan_horizontal, assigns_top, assigns_bottom,
    assigns_left, assigns_right.
  repeat split; case_tests; auto; right; (split; [lia | reflexivity]).
Qed.

(** Over the rest of the loop the last assignment wins. *)
Lemma scan_last_writer (ls : list CopyLine) : forall s : sides,
  last_writer ls (assigns_top i j) (s_top s) (s_top (scan i j ls s)) /\
  last_writer ls (assigns_bottom i j) (s_bottom s)
    (s_bottom (scan i j ls s)) /\
  last_writer ls (assigns_left i j) (s_left s) (s_left (scan i j ls s)) /\
  last_writer ls (assigns_right i j) (s_right s)
    (s_right (scan i j ls s)).
Proof.
  unfold last_writer.
  induction ls as [|l ls IH]; intros s; [rewrite scan_nil; auto|].
  rewrite scan_cons.
  destruct (IH (scan_line i j s l)) as (Ht & Hb & Hl & Hr).
  destruct (scan_line_writes l s) as (Wt & Wb & Wl & Wr).
  repeat split.
  - destruct Ht as [Ht | (l0 & Hin & Ha & Hv)];
      [|right; exists l0; simpl; auto].
    rewrite Ht. destruct Wt as [Wt | [Wa Wv]]; [left; auto|].
    right. exists l. simpl. auto.
  - destruct Hb as [Hb | (l0 & Hin & Ha & Hv)];
      [|right; exists l0; simpl; auto].
    rewrite Hb. destruct Wb as [Wb | [Wa Wv]]; [left; auto|].
    right. exists l. simpl. auto.
  - destruct Hl as [Hl | (l0 & Hin & Ha & Hv)];
      [|right; exists l0; simpl; auto].
    rewrite Hl. destruct Wl as [Wl | [Wa Wv]]; [left; auto|].
    right. exists l. simpl. auto.
  - destruct Hr as [Hr | (l0 & Hin & Ha & Hv)];
      [|right; exists l0; simpl; auto].
    rewrite Hr. destruct Wr as [Wr | [Wa Wv]]; [left; auto|].
    right. exists l. simpl. auto.
Qed.

End Writers.

(** C4.  Take an in-bounds query (i, j) and a line of the lattice, with
    [before] and [after] the loop variables before and after the line's
    iteration and [blk] the returned block.
    Vertical axis, [vslot = j]: a line with [vstart = vstop = i] changes
    neither top nor bottom, and the block's top and bottom are those the
    other lines alone give; [i = vstart] records the vertex as bottom,
    [i = vstop] records it as top, [vstart < i < vstop] records it as
    both.  What is recorded is what the block shows, unless a later line
    of the list assigns the same variable at (i, j), the last assignment
    winning.
    Horizontal axis, [hslot = i]: the mirror rules on [vslot]/[hstop]
    record right, left, or both, with [vslot = hstop = j] the degenerate
    case. *)
Theorem C4_axis_rules (L : CrossingLattice) (i j : Z)
  (pre post : list CopyLine) (line : CopyLine)
  (Hin : 1 <= i <= height L /\ 1 <= j <= width L)
  (Hlines : lines L = pre ++ line :: post) :
  let blk := block_at L i j in
  let rest := block_at (with_lines L (pre ++ post)) i j in
  let before := scan i j pre no_sides in
  let after := scan i j (pre ++ [line]) no_sides in
  __getitem__ L (IdxTuple [i; j]) = Return blk /\
  (vslot line = j ->
   (vstart line = i /\ vstop line = i ->
    (s_top after = s_top before /\ s_bottom after = s_bottom before) /\
    (top blk = top rest /\ bottom blk = bottom rest)) /\
   (vstart line = i /\ vstop line <> i ->
    (s_bottom after = vertex line /\ s_top after = s_top before) /\
    last_writer post (assigns_bottom i j) (vertex line) (bottom blk)) /\
   (vstop line = i /\ vstart line <> i ->
    (s_top after = vertex line /\ s_bottom after = s_bottom before) /\
    last_writer post (assigns_top i j) (vertex line) (top blk)) /\
   (vstart line < i < vstop line ->
    (s_top after = vertex line /\ s_bottom after = vertex line) /\
    last_writer post (assigns_top i j) (vertex line) (top blk) /\
    last_writer post (assigns_bottom i j) (vertex line) (bottom blk))) /\
  (hslot line = i ->
   (vslot line = j /\ hstop line = j ->
    (s_left after = s_left before /\ s_right after = s_right before) /\
    (left blk = left rest /\ right blk = right rest)) /\
   (vslot line = j /\ hstop line <> j ->
    (s_right after = vertex line /\ s_left after = s_left before) /\
    last_writer post (assigns_right i j) (vertex line) (right blk)) /\
   (hstop line = j /\ vslot line <> j ->
    (s_left after = vertex line /\ s_right after = s_right before) /\
    last_writer post (assigns_left i j) (vertex line) (left blk)) /\
   (vslot line < j < hstop line ->
    (s_left after = vertex line /\ s_right after = vertex line) /\
    last_writer post (assigns_left i j) (vertex line) (left blk) /\
    last_writer post (assigns_right i j) (vertex line) (right blk))).
Proof.
  intros blk rest before after.
  destruct (block_at_sides L i j) as (Bt & Bb & Bl & Br).
  destruct (block_at_with_lines L (pre ++ post) i j)
    as (Rt & Rb & Rl & Rr).
  fold blk in Bt, Bb, Bl, Br. fold rest in Rt, Rb, Rl, Rr.
  rewrite Hlines in Bt, Bb, Bl, Br.
  assert (Eafter : after = scan_line i j before line).
  { unfold after, before. now rewrite scan_app. }
  assert (Efinal : scan i j (pre ++ line :: post) no_sides
                   = scan i j post after).
  { unfold after. rewrite !scan_app. reflexivity. }
  destruct (scan_last_writer i j post after) as (Wt & Wb & Wl & Wr).
  rewrite <- Efinal in Wt, Wb, Wl, Wr.
  rewrite <- Bt in Wt. rewrite <- Bb in Wb.
  rewrite <- Bl in Wl. rewrite <- Br in Wr.
  destruct (scan_line_tb i j line before) as [Et Eb].
  destruct (scan_line_lr i j line before) as [El Er].
  destruct (scan_vertical_lr i j line before) as [Vl Vr].
  rewrite <- Eafter in Et, Eb, El, Er.
  split; [apply getitem_in_bounds, in_bounds_iff, Hin|].
  split.
  - intros Hv. repeat split.
    + rewrite Et, scan_vertical_degenerate; tauto.
    + rewrite Eb, scan_vertical_degenerate; tauto.
    + rewrite Bt, Rt. apply scan_drop_tb.
      intros s. apply scan_vertical_degenerate; tauto.
    + rewrite Bb, Rb. apply scan_drop_tb.
      intros s. apply scan_vertical_degenerate; tauto.
    + rewrite Eb, scan_vertical_start; tauto.
    + rewrite Et, scan_vertical_start; tauto.
    + assert (E : s_bottom after = vertex line)
        by (rewrite Eb, scan_vertical_start; tauto).
      now rewrite <- E.
    + rewrite Et, scan_vertical_stop; tauto.
    + rewrite Eb, scan_vertical_stop; tauto.
    + assert (E : s_top after = vertex line)
        by (rewrite Et, scan_vertical_stop; tauto).
      now rewrite <- E.
    + rewrite Et, scan_vertical_middle; tauto.
    + rewrite Eb, scan_vertical_middle; tauto.
    + assert (E : s_top after = vertex line)
        by (rewrite Et, scan_vertical_middle; tauto).
      now rewrite <- E.
    + assert (E : s_bottom after = vertex line)
        by (rewrite Eb, scan_vertical_middle; tauto).
      now rewrite <- E.
  - intros Hh. repeat split.
    + rewrite El, scan_horizontal_degenerate; tauto.
    + rewrite Er, scan_horizontal_degenerate; tauto.
    + rewrite Bl, Rl. apply scan_drop_lr.
      intros s. apply scan_horizontal_degenerate; tauto.
    + rewrite Br, Rr. apply scan_drop_lr.
      intros s. apply scan_horizontal_degenerate; tauto.
    + rewrite Er, scan_horizontal_start; tauto.
    + rewrite El, scan_horizontal_start; tauto.
    + assert (E : s_right after = vertex line)
        by (rewrite Er, scan_horizontal_start; tauto).
      now rewrite <- E.
    + rewrite El, scan_horizontal_stop; tauto.
    + rewrite Er, scan_horizontal_stop; tauto.
    + assert (E : s_left after = vertex line)
        by (rewrite El, scan_horizontal_stop; tauto).
      now rewrite <- E.
    + rewrite El, scan_horizontal_middle; tauto.
    + rewrite Er, scan_horizontal_middle; tauto.
    + assert (E : s_left after = vertex line)
        by (rewrite El, scan_horizontal_middle; tauto).
      now rewrite <- E.
    + assert (E : s_right after = vertex line)
        by (rewrite Er, scan_horizontal_middle; tauto).
      now rewrite <- E.
Qed.

Lemma C4_axis_rules_witness :
  (last_writer [mkCopyLine 2 3 3 1 3 3] (assigns_top 2 2) 1
     (top (block_at L3 2 2)) /\
   last_writer [mkCopyLine 2 3 3 1 3 3] (assigns_bottom 2 2) 1
     (bottom (block_at L3 2 2))) /\
  last_writer [mkCopyLine 2 3 3 1 3 3] (assigns_right 2 2) 1
    (right (block_at L3 2 2)).
Proof.
  pose proof (C4_axis_rules L3 2 2 [mkCopyLine 0 1 1 1 3 3]
                [mkCopyLine 2 3 3 1 3 3] (mkCopyLine 1 2 2 1 3 3)
                ltac:(simpl; lia) eq_refl) as H.
  cbv zeta in H. destruct H as (_ & Hv & Hh).
  destruct (Hv eq_refl) as (_ & _ & _ & Hmid).
  destruct (Hh eq_refl) as (_ & Hstart & _ & _).
  split.
  - apply Hmid. simpl. lia.
  - apply Hstart. simpl. split; [reflexivity | lia].
Defined.

(** Two lines in one column.  Where both pass through the cell the later
    one is shown; where only the first reaches the cell, it is shown. *)
Example shared_column_last_wins :
  __getitem__
    (mkCrossingLattice 3 3
       [mkCopyLine 5 1 1 1 3 3; mkCopyLine 6 1 2 1 3 3] G3)
    (IdxTuple [2; 1])
  = Return (mkBlock 6 6 (-1) 6 0).
Proof. reflexivity. Qed.

Example shared_column_disjoint_rows :
  __getitem__
    (mkCrossingLattice 4 4
       [mkCopyLine 5 1 1 1 2 1; mkCopyLine 6 1 3 3 4 1] G3)
    (IdxTuple [1; 1])
  = Return (mkBlock (-1) 5 (-1) (-1) (-1)).
Proof. reflexivity. Qed.

(* ================================================================== *)
(** ** The geometry emitter *)

Lemma range_In (a b x : Z) : In x (range a b) <-> a <= x < b.
Proof.
  unfold range. rewrite in_map_iff. split.
  - intros (k & Hk & Hin). apply in_seq in Hin. lia.
  - intros H. exists (Z.to_nat (x - a)). split; [lia|].
    apply in_seq. lia.
Qed.

Lemma range_down_In (a b x : Z) : In x (range_down a b) <-> b < x <= a.
Proof.
  unfold range_down. rewrite in_map_iff. split.
  - intros (k & Hk & Hin). apply in_seq in Hin. lia.
  - intros H. exists (Z.to_nat (a - x)). split; [lia|].
    apply in_seq. lia.
Qed.

Lemma range_empty (a b : Z) : b <= a -> range a b = [].
Proof.
  intros H. unfold range.
  replace (Z.to_nat (b - a)) with 0%nat by lia. reflexivity.
Qed.

Lemma range_down_empty (a b : Z) : a <= b -> range_down a b = [].
Proof.
  intros H. unfold range_down.
  replace (Z.to_nat (a - b)) with 0%nat by lia. reflexivity.
Qed.

Lemma loc_node_from_type (node_type : string) (i j w : Z) :
  loc (node_from_type node_type i j w) = (i, j).
Proof.
  unfold node_from_type. now destruct (String.eqb node_type _).
Qed.

Lemma weight_node_from_type_weighted (node_type : string) (i j w : Z) :
  node_type <> "UnWeightedNode"%string ->
  node_from_type node_type i j w = mkNode i j (Numeric w).
Proof.
  intros H. unfold node_from_type.
  destruct (String.eqb_spec node_type "UnWeightedNode");
    [contradiction | reflexivity].
Qed.

Lemma weight_node_from_type_unweighted (i j w : Z) :
  node_from_type "UnWeightedNode" i j w = mkNode i j ONE_INSTANCE.
Proof. reflexivity. Qed.

Section Emitter.

Variable node_type : string.
Variable tc : CopyLine.
Variables I J : Z.

(** No node of the three runs sits on the center's coordinate. *)
Lemma grow_up_off_center :
  Forall (fun nd => loc nd <> (I, J + 1)) (grow_up node_type tc I J).
Proof.
  apply Forall_forall. intros nd Hin.
  unfold grow_up in Hin. apply in_map_iff in Hin.
  destruct Hin as (i & <- & _).
  rewrite loc_node_from_type. intros E. inversion E. lia.
Qed.

Lemma grow_down_off_center :
  Forall (fun nd => loc nd <> (I, J + 1)) (grow_down node_type tc I J).
Proof.
  apply Forall_forall. intros nd Hin.
  unfold grow_down in Hin. apply in_map_iff in Hin.
  destruct Hin as (i & <- & _).
  destruct (Z.eqb_spec i I); rewrite loc_node_from_type;
    intros E; inversion E; lia.
Qed.

Lemma grow_right_off_center :
  Forall (fun nd => loc nd <> (I, J + 1)) (grow_right node_type tc I J).
Proof.
  apply Forall_forall. intros nd Hin.
  unfold grow_right in Hin. apply in_map_iff in Hin.
  destruct Hin as (j & <- & Hj). apply range_In in Hj.
  rewrite loc_node_from_type. intros E. inversion E. lia.
Qed.

(** The runs of a line that does not extend in a direction are empty. *)
Lemma grow_up_none : hslot tc <= vstart tc -> grow_up node_type tc I J = [].
Proof.
  intros H. unfold grow_up. rewrite range_down_empty; [reflexivity | lia].
Qed.

Lemma grow_down_none :
  vstop tc <= hslot tc -> grow_down node_type tc I J = [].
Proof.
  intros H. unfold grow_down. rewrite range_empty; [reflexivity | lia].
Qed.

Lemma grow_right_none :
  hstop tc <= vslot tc -> grow_right node_type tc I J = [].
Proof.
  intros H. unfold grow_right. rewrite range_empty; [reflexivity | lia].
Qed.

End Emitter.

Lemma nline_of_bounds (tc : CopyLine) : 0 <= nline_of tc <= 3.
Proof.
  unfold nline_of, b2z.
  destruct (vstart tc <? hslot tc), (vstop tc >? hslot tc),
    (hstop tc >? vslot tc); lia.
Qed.

Lemma nline_of_count (tc : CopyLine) :
  nline_of tc
  = Z.of_nat (length (filter (fun b : bool => b) (grown_directions tc))).
Proof.
  unfold nline_of, grown_directions, b2z.
  rewrite !Z.gtb_ltb.
  destruct (vstart tc <? hslot tc), (hslot tc <? vstop tc),
    (vslot tc <? hstop tc); reflexivity.
Qed.

(** C7.  With [I = 4 * (hslot - 1) + padding + 2] and
    [J = 4 * (vslot - 1) + padding + 1], the emitted sequence ends with
    the center node at (I, J + 1) and no other node of the sequence sits
    there.  In a weighted variant the center's weight is [nline], the
    number of directions among up ([vstart < hslot]), down
    ([vstop > hslot]) and right ([hstop > vslot]) that the line grows in,
    between 0 and 3; the unweighted variant carries the unit weight. *)
Theorem C7_center_node (node_type : string) (tc : CopyLine) (padding : Z) :
  let I := 4 * (hslot tc - 1) + padding + 2 in
  let J := 4 * (vslot tc - 1) + padding + 1 in
  let nline :=
    Z.of_nat (length (filter (fun b : bool => b) (grown_directions tc))) in
  center_location tc padding = (I, J) /\
  0 <= nline <= 3 /\
  exists (pre : list Node) (center : Node),
    copyline_locations node_type tc padding = pre ++ [center] /\
    loc center = (I, J + 1) /\
    Forall (fun nd => loc nd <> (I, J + 1)) pre /\
    (node_type <> "UnWeightedNode"%string ->
     center = mkNode I (J + 1) (Numeric nline)) /\
    (node_type = "UnWeightedNode"%string ->
     center = mkNode I (J + 1) ONE_INSTANCE).
Proof.
  intros I J nline.
  assert (Hn : nline = nline_of tc) by (symmetry; apply nline_of_count).
  split; [reflexivity|].
  split; [rewrite Hn; apply nline_of_bounds|].
  exists (grow_up node_type tc I J ++ grow_down node_type tc I J
          ++ grow_right node_type tc I J).
  exists (node_from_type node_type I (J + 1) (nline_of tc)).
  split; [|split; [|split; [|split]]].
  - unfold copyline_locations, center_location. fold I J.
    now rewrite <- !app_assoc.
  - apply loc_node_from_type.
  - repeat (apply Forall_app; split).
    + apply grow_up_off_center.
    + apply grow_down_off_center.
    + apply grow_right_off_center.
  - intros Hw. rewrite Hn. now apply weight_node_from_type_weighted.
  - intros ->. rewrite weight_node_from_type_unweighted. reflexivity.
Qed.

Lemma C7_center_node_witness :
  exists (pre : list Node) (center : Node),
    copyline_locations "WeightedNode" (mkCopyLine 1 2 2 1 3 3) 0
    = pre ++ [center] /\
    Forall (fun nd => loc nd <> (6, 6)) pre /\
    center = mkNode 6 6 (Numeric 3).
Proof.
  destruct (C7_center_node "WeightedNode" (mkCopyLine 1 2 2 1 3 3) 0)
    as (_ & _ & pre & center & Hloc & _ & Hoff & Hw & _).
  exists pre, center. split; [exact Hloc|]. split; [exact Hoff|].
  apply Hw. discriminate.
Defined.

(** C8.  A line with [vstart = vstop = hslot] and [hstop = vslot] emits,
    at every padding, exactly one node: the center at (I, J + 1), built
    with weight 0 (which a weighted variant carries).  In particular the
    line with all slots 1 at padding 0 emits the single node (2, 2) of
    weight 0. *)
Theorem C8_degenerate_line (node_type : string) (tc : CopyLine)
  (padding : Z)
  (Hstart : vstart tc = hslot tc) (Hstop : vstop tc = hslot tc)
  (Hh : hstop tc = vslot tc) :
  let I := 4 * (hslot tc - 1) + padding + 2 in
  let J := 4 * (vslot tc - 1) + padding + 1 in
  copyline_locations node_type tc padding
  = [node_from_type node_type I (J + 1) 0] /\
  length (copyline_locations node_type tc padding) = 1%nat /\
  (node_type <> "UnWeightedNode"%string ->
   copyline_locations node_type tc padding
   = [mkNode I (J + 1) (Numeric 0)]).
Proof.
  intros I J.
  assert (E : copyline_locations node_type tc padding
              = [node_from_type node_type I (J + 1) 0]).
  { unfold copyline_locations, center_location. fold I J.
    rewrite grow_up_none, grow_down_none, grow_right_none by lia.
    simpl. f_equal. f_equal.
    unfold nline_of, b2z. rewrite !Z.gtb_ltb.
    destruct (Z.ltb_spec (vstart tc) (hslot tc)); [lia|].
    destruct (Z.ltb_spec (hslot tc) (vstop tc)); [lia|].
    destruct (Z.ltb_spec (vslot tc) (hstop tc)); [lia|].
    reflexivity. }
  split; [exact E|]. split; [now rewrite E|].
  intros Hw. rewrite E. f_equal.
  now apply weight_node_from_type_weighted.
Qed.

Lemma C8_degenerate_line_witness :
  copyline_locations "WeightedNode" (mkCopyLine 0 1 1 1 1 1) 0
  = [mkNode 2 2 (Numeric 0)].
Proof.
  apply (C8_degenerate_line "WeightedNode" (mkCopyLine 0 1 1 1 1 1) 0
           eq_refl eq_refl eq_refl).
  discriminate.
Defined.

Example copyline_locations_T_shape :
  copyline_locations "WeightedNode" (mkCopyLine 1 2 2 1 3 3) 0
  = [ mkNode 6 5 (Numeric 2); mkNode 5 5 (Numeric 2);
      mkNode 4 5 (Numeric 2); mkNode 3 5 (Numeric 1);
      mkNode 7 6 (Numeric 2); mkNode 7 5 (Numeric 2);
      mkNode 8 5 (Numeric 2); mkNode 9 5 (Numeric 1);
      mkNode 6 7 (Numeric 2); mkNode 6 8 (Numeric 1);
      mkNode 6 6 (Numeric 3) ].
Proof. reflexivity. Qed.

(* ================================================================== *)
(** ** Blocks of the default construction *)

Lemma has_edge_sym (g : Graph) (u v : Z) : has_edge g u v = has_edge g v u.
Proof.
  unfold has_edge.
  induction (edges g) as [|e es IH]; simpl; [reflexivity|].
  rewrite IH. f_equal. unfold edge_matches. apply orb_comm.
Qed.

Lemma enumerate_from_app (l1 l2 : list Z) : forall k : Z,
  enumerate_from k (l1 ++ l2)
  = enumerate_from k l1 ++ enumerate_from (k + len l1) l2.
Proof.
  induction l1 as [|x l1 IH]; intros k; simpl.
  - unfold len. simpl. now rewrite Z.add_0_r.
  - rewrite IH. do 3 f_equal. unfold len. simpl length. lia.
Qed.

Lemma diagonal_slots (n : Z) (l : list Z) : forall k : Z,
  Forall (fun c => k + 1 <= vslot c <= k + len l /\ hslot c = vslot c)
         (map (diagonal_line n) (enumerate_from k l)).
Proof.
  induction l as [|x l IH]; intros k; simpl; constructor.
  - simpl. unfold len. simpl length. lia.
  - eapply Forall_impl; [|apply (IH (k + 1))].
    intros c [H1 H2]. unfold len in *. simpl length. lia.
Qed.

Lemma copylines_of_split (pre post : list Z) (u : Z) :
  let n := len (pre ++ u :: post) in
  copylines_of (pre ++ u :: post)
  = map (diagonal_line n) (enumerate_from 0 pre)
    ++ mkCopyLine u (len pre + 1) (len pre + 1) 1 n n
    :: map (diagonal_line n) (enumerate_from (len pre + 1) post).
Proof.
  intros n. unfold copylines_of, enumerate. fold n.
  rewrite enumerate_from_app, map_app. simpl. reflexivity.
Qed.

Section DefaultConstruction.

Variable order : list Z.
Let n := len order.

(** At column [a + 1] the vertical pair is written by line [a] alone;
    at row [a + 1] the horizontal pair is written by line [a] alone. *)
Lemma default_vertical_pair (i : Z) (a : nat) (u : Z) :
  nth_error order a = Some u ->
  let j := Z.of_nat a + 1 in
  let s := scan i j (copylines_of order) no_sides in
  let s' := scan_vertical i j (mkCopyLine u j j 1 n n) no_sides in
  s_top s = s_top s' /\ s_bottom s = s_bottom s'.
Proof.
  intros Ha j s s'.
  destruct (nth_error_split order a Ha) as (pre & post & Ho & Hlen).
  assert (Hpre : len pre + 1 = j) by (unfold len, j; lia).
  assert (Hs : s = scan i j
             (map (diagonal_line n) (enumerate_from 0 pre)
              ++ mkCopyLine u j j 1 n n
              :: map (diagonal_line n) (enumerate_from j post))
             no_sides).
  { unfold s, n. rewrite Ho, copylines_of_split, Hpre. reflexivity. }
  rewrite Hs.
  assert (HFpost : Forall (fun c => vslot c <> j)
                     (map (diagonal_line n) (enumerate_from j post))).
  { eapply Forall_impl; [|apply diagonal_slots]. simpl. intros; lia. }
  assert (HFpre : Forall (fun c => vslot c <> j)
                    (map (diagonal_line n) (enumerate_from 0 pre))).
  { eapply Forall_impl; [|apply diagonal_slots]. simpl. intros; lia. }
  destruct (scan_split_tb i j (mkCopyLine u j j 1 n n)
              (map (diagonal_line n) (enumerate_from 0 pre)) _ HFpost)
    as [-> ->].
  destruct (scan_other_columns i j _ no_sides HFpre) as [Et Eb].
  apply scan_vertical_ext; assumption.
Qed.

Lemma default_horizontal_pair (j : Z) (a : nat) (u : Z) :
  nth_error order a = Some u ->
  let i := Z.of_nat a + 1 in
  let s := scan i j (copylines_of order) no_sides in
  let s' := scan_horizontal i j (mkCopyLine u i i 1 n n) no_sides in
  s_left s = s_left s' /\ s_right s = s_right s'.
Proof.
  intros Ha i s s'.
  destruct (nth_error_split order a Ha) as (pre & post & Ho & Hlen).
  assert (Hpre : len pre + 1 = i) by (unfold len, i; lia).
  assert (Hs : s = scan i j
             (map (diagonal_line n) (enumerate_from 0 pre)
              ++ mkCopyLine u i i 1 n n
              :: map (diagonal_line n) (enumerate_from i post))
             no_sides).
  { unfold s, n. rewrite Ho, copylines_of_split, Hpre. reflexivity. }
  rewrite Hs.
  assert (HFpost : Forall (fun c => hslot c <> i)
                     (map (diagonal_line n) (enumerate_from i post))).
  { eapply Forall_impl; [|apply diagonal_slots]. simpl. intros; lia. }
  assert (HFpre : Forall (fun c => hslot c <> i)
                    (map (diagonal_line n) (enumerate_from 0 pre))).
  { eapply Forall_impl; [|apply diagonal_slots]. simpl. intros; lia. }
  destruct (scan_split_lr i j (mkCopyLine u i i 1 n n)
              (map (diagonal_line n) (enumerate_from 0 pre)) _ HFpost)
    as [-> ->].
  destruct (scan_other_rows i j _ no_sides HFpre) as [El Er].
  apply scan_horizontal_ext; assumption.
Qed.

(** The vertical and the horizontal vertex of the block at
    [(a + 1, b + 1)]: the column's line bears vertically as soon as
    there are two rows; the row's line bears horizontally on and right
    of the diagonal, except at the last diagonal cell. *)
Lemma default_pick_v (a b : nat) (x : Z) :
  nth_error order b = Some x ->
  (a < length order)%nat ->
  pick_v (scan (Z.of_nat a + 1) (Z.of_nat b + 1)
            (copylines_of order) no_sides)
  = if n =? 1 then -1 else x.
Proof.
  intros Hb Ha.
  destruct (default_vertical_pair (Z.of_nat a + 1) b x Hb) as [Et Eb].
  unfold pick_v. rewrite Et, Eb. clear Et Eb.
  assert (Hn : Z.of_nat a + 1 <= n) by (unfold n, len; lia).
  unfold scan_vertical. cbn [vertex vslot vstart vstop].
  case_tests; try reflexivity; try lia; simpl in *; congruence.
Qed.

Lemma default_pick_h (a b : nat) (w : Z) :
  nth_error order a = Some w ->
  (b < length order)%nat ->
  pick_h (scan (Z.of_nat a + 1) (Z.of_nat b + 1)
            (copylines_of order) no_sides)
  = if (Nat.leb a b) && negb (Z.of_nat a + 1 =? n) then w
    else if (Nat.ltb a b) then w else -1.
Proof.
  intros Ha Hb.
  destruct (default_horizontal_pair (Z.of_nat b + 1) a w Ha) as [El Er].
  unfold pick_h. rewrite El, Er. clear El Er.
  assert (Hn : Z.of_nat b + 1 <= n) by (unfold n, len; lia).
  assert (Hn' : Z.of_nat a + 1 <= n).
  { assert (a < length order)%nat
      by (apply nth_error_Some; congruence).
    unfold n, len; lia. }
  unfold scan_horizontal. cbn [vertex vslot hslot hstop].
  destruct (Nat.leb_spec a b); destruct (Nat.ltb_spec a b);
    case_tests; try reflexivity; try lia; simpl in *; congruence.
Qed.

End DefaultConstruction.

Lemma reports_crossing_sym (L : CrossingLattice) (i j x y : Z) :
  reports_crossing L i j x y <-> reports_crossing L i j y x.
Proof.
  unfold reports_crossing.
  split; intros (blk & Hq & Hc & Hx); exists blk; tauto.
Qed.

Lemma default_lattice_eq (g : Graph) (order : list Z) (L : CrossingLattice) :
  default_lattice g order = Return L ->
  L = mkCrossingLattice (len order) (len order) (copylines_of order) g.
Proof.
  unfold default_lattice. rewrite create_copylines_returns.
  intros H. now inversion H.
Qed.

Lemma getitem_returns_inv (L : CrossingLattice) (i j : Z) (blk : Block) :
  __getitem__ L (IdxTuple [i; j]) = Return blk ->
  in_bounds L i j = true /\ blk = block_at L i j.
Proof.
  simpl. destruct (in_bounds L i j); simpl; intros H.
  - split; [reflexivity | now inversion H].
  - discriminate H.
Qed.

Lemma connected_one (L : CrossingLattice) (i j : Z) :
  connected (block_at L i j) = 1 <->
  block_h (block_at L i j) <> -1 /\
  block_v (block_at L i j) <> -1 /\
  has_edge (graph L) (block_h (block_at L i j))
                     (block_v (block_at L i j)) = true.
Proof.
  rewrite block_h_at, block_v_at.
  change (connected (block_at L i j))
    with (connectivity (graph L) (scan i j (lines L) no_sides)).
  unfold connectivity.
  set (s := scan i j (lines L) no_sides).
  destruct (Z.eqb_spec (pick_v s) (-1)); destruct (Z.eqb_spec (pick_h s) (-1));
    simpl; try (split; [discriminate | tauto]).
  destruct (has_edge (graph L) (pick_h s) (pick_v s)).
  - tauto.
  - split; [discriminate | intros (_ & _ & H); discriminate H].
Qed.

Section UniqueCrossing.

Variable g : Graph.
Variable order : list Z.
Variables a b : nat.
Variables u v : Z.

Hypothesis Hnodup : NoDup order.
Hypothesis Hu : u <> -1.
Hypothesis Hv : v <> -1.
Hypothesis Ha : nth_error order a = Some u.
Hypothesis Hb : nth_error order b = Some v.
Hypothesis Hab : a <> b.
Hypothesis Hadj : has_edge g u v = true.

Let n := len order.
Let L := mkCrossingLattice n n (copylines_of order) g.

Lemma index_bounds : (a < length order)%nat /\ (b < length order)%nat.
Proof. split; apply nth_error_Some; congruence. Qed.

Lemma crossing_at_slots :
  reports_crossing L (Z.of_nat (Nat.min a b) + 1)
                     (Z.of_nat (Nat.max a b) + 1) u v.
Proof.
  destruct index_bounds as [Hla Hlb].
  assert (Hn2 : 2 <= n) by (unfold n, len; lia).
  exists (block_at L (Z.of_nat (Nat.min a b) + 1)
                     (Z.of_nat (Nat.max a b) + 1)).
  split.
  { apply getitem_in_bounds, in_bounds_iff. simpl. unfold n, len. lia. }
  rewrite connected_one, block_h_at, block_v_at. simpl lines. simpl graph.
  destruct (Nat.lt_ge_cases a b) as [Hlt | Hge].
  - rewrite Nat.min_l, Nat.max_r by lia.
    rewrite (default_pick_h order a b u Ha Hlb).
    rewrite (default_pick_v order a b v Hb Hla).
    fold n.
    destruct (Nat.ltb_spec a b); [|lia].
    destruct (Z.eqb_spec n 1); [lia|].
    destruct (Nat.leb a b && negb (Z.of_nat a + 1 =? n)); auto.
  - rewrite Nat.min_r, Nat.max_l by lia.
    rewrite (default_pick_h order b a v Hb Hla).
    rewrite (default_pick_v order b a u Ha Hlb).
    fold n.
    destruct (Nat.ltb_spec b a); [|lia].
    destruct (Z.eqb_spec n 1); [lia|].
    rewrite has_edge_sym in Hadj.
    destruct (Nat.leb b a && negb (Z.of_nat b + 1 =? n)); auto.
Qed.

Lemma crossing_only_at_slots (i j : Z) :
  reports_crossing L i j u v ->
  (i, j) = (Z.of_nat (Nat.min a b) + 1, Z.of_nat (Nat.max a b) + 1).
Proof.
  intros (blk & Hq & Hc & Hx).
  apply getitem_returns_inv in Hq. destruct Hq as [Hin ->].
  apply in_bounds_iff in Hin. simpl in Hin.
  apply connected_one in Hc. destruct Hc as (Hh & Hvv & _).
  rewrite block_h_at in Hh, Hx. rewrite block_v_at in Hvv, Hx.
  simpl lines in Hh, Hvv, Hx.
  set (a' := Z.to_nat (i - 1)). set (b' := Z.to_nat (j - 1)).
  assert (Hi : i = Z.of_nat a' + 1) by (unfold a'; lia).
  assert (Hj : j = Z.of_nat b' + 1) by (unfold b'; lia).
  assert (Hla' : (a' < length order)%nat) by (unfold a', n, len in *; lia).
  assert (Hlb' : (b' < length order)%nat) by (unfold b', n, len in *; lia).
  destruct (nth_error order a') as [w|] eqn:Ew;
    [|apply nth_error_None in Ew; lia].
  destruct (nth_error order b') as [x|] eqn:Ex;
    [|apply nth_error_None in Ex; lia].
  rewrite Hi, Hj in Hh, Hvv, Hx.
  rewrite (default_pick_h order a' b' w Ew Hlb') in Hh, Hx.
  rewrite (default_pick_v order a' b' x Ex Hla') in Hvv, Hx.
  fold n in Hh, Hvv, Hx.
  destruct (Z.eqb_spec n 1) as [|Hn1]; [congruence|].
  assert (Hle : (a' <= b')%nat /\ (a' = b' -> Z.of_nat a' + 1 <> n)).
  { destruct (Nat.leb_spec a' b'); destruct (Nat.ltb_spec a' b');
      destruct (Z.eqb_spec (Z.of_nat a' + 1) n); simpl in Hh;
      try congruence; split; lia. }
  assert (Hw : (if Nat.leb a' b' && negb (Z.of_nat a' + 1 =? n) then w
                else if Nat.ltb a' b' then w else -1) = w).
  { destruct (Nat.leb a' b' && negb (Z.of_nat a' + 1 =? n));
      [reflexivity|].
    destruct (Nat.ltb a' b'); [reflexivity | congruence]. }
  rewrite Hw in Hx.
  pose proof (proj1 (NoDup_nth_error order) Hnodup) as Hinj.
  destruct Hx as [[-> ->] | [-> ->]].
  - assert (a' = a) by (apply Hinj; [assumption | congruence]).
    assert (b' = b) by (apply Hinj; [assumption | congruence]).
    subst a b. rewrite Hi, Hj. f_equal; lia.
  - assert (a' = b) by (apply Hinj; [assumption | congruence]).
    assert (b' = a) by (apply Hinj; [assumption | congruence]).
    subst a b. rewrite Hi, Hj. f_equal; lia.
Qed.

End UniqueCrossing.

(** C9 (as the code has it).  Take the default construction over a valid
    order, two distinct indices [a], [b] carrying adjacent vertices [u],
    [v], neither of which is the sentinel -1.  The lattice query reports
    a connected crossing of the two lines at exactly one coordinate,
    [(min a b + 1, max a b + 1)], and it is the same coordinate whether
    the crossing is taken as that of [u] with [v] or of [v] with [u]. *)
Theorem C9_unique_crossing (g : Graph) (order : list Z) (a b : nat)
  (u v : Z) (L : CrossingLattice)
  (Hvalid : valid_order g order = true)
  (Hids : u <> -1 /\ v <> -1)
  (Ha : nth_error order a = Some u)
  (Hb : nth_error order b = Some v)
  (Hab : a <> b)
  (Hadj : has_edge g u v = true)
  (HL : default_lattice g order = Return L) :
  let c := (Z.of_nat (Nat.min a b) + 1, Z.of_nat (Nat.max a b) + 1) in
  (1 <= fst c <= height L /\ 1 <= snd c <= width L) /\
  (forall i j : Z, reports_crossing L i j u v <-> (i, j) = c) /\
  (forall i j : Z, reports_crossing L i j v u <-> (i, j) = c).
Proof.
  intros c. destruct Hids as [Hu Hv].
  pose proof (valid_order_NoDup g order Hvalid) as Hnodup.
  apply default_lattice_eq in HL. subst L.
  assert (Hiff : forall i j : Z,
            reports_crossing
              (mkCrossingLattice (len order) (len order)
                 (copylines_of order) g) i j u v <-> (i, j) = c).
  { intros i j. split.
    - now apply crossing_only_at_slots.
    - intros E. inversion E; subst. now apply crossing_at_slots. }
  split; [|split].
  - destruct (index_bounds order a b u v Ha Hb) as [Hla Hlb].
    simpl. unfold len. lia.
  - exact Hiff.
  - intros i j. rewrite reports_crossing_sym. apply Hiff.
Qed.

Lemma C9_unique_crossing_witness :
  (forall i j : Z, reports_crossing L3 i j 1 2 <-> (i, j) = (2, 3)) /\
  (forall i j : Z, reports_crossing L3 i j 2 1 <-> (i, j) = (2, 3)).
Proof.
  apply (C9_unique_crossing G3 [0; 1; 2] 1 2 1 2 L3);
    try reflexivity; try (split; discriminate); discriminate.
Defined.

(** C9 fails as stated: with a vertex whose id is the sentinel -1, the
    adjacent pair (-1, 0) is reported connected at no coordinate. *)
Lemma C9_sentinel_vertex_hides_crossing :
  valid_order Gneg [-1; 0] = true /\
  has_edge Gneg (-1) 0 = true /\
  default_lattice Gneg [-1; 0] = Return Lneg /\
  __getitem__ Lneg (IdxTuple [1; 2]) = Return (mkBlock (-1) 0 (-1) (-1) (-1)) /\
  ~ (exists (i j : Z) (blk : Block),
       __getitem__ Lneg (IdxTuple [i; j]) = Return blk /\
       connected blk = 1).
Proof.
  repeat split.
  intros (i & j & blk & Hq & Hc).
  apply getitem_returns_inv in Hq. destruct Hq as [Hin ->].
  apply in_bounds_iff in Hin. simpl in Hin.
  assert (Hi : i = 1 \/ i = 2) by lia.
  assert (Hj : j = 1 \/ j = 2) by lia.
  destruct Hi as [-> | ->]; destruct Hj as [-> | ->];
    vm_compute in Hc; discriminate Hc.
Qed.

(* ================================================================== *)
(** ** Further properties of the geometry emitter *)

Lemma range_length (a b : Z) : length (range a b) = Z.to_nat (b - a).
Proof. unfold range. now rewrite length_map, length_seq. Qed.

Lemma range_down_length (a b : Z) :
  length (range_down a b) = Z.to_nat (a - b).
Proof. unfold range_down. now rewrite length_map, length_seq. Qed.

Lemma range_NoDup (a b : Z) : NoDup (range a b).
Proof.
  unfold range. apply NoDup_map_NoDup_ForallPairs; [|apply seq_NoDup].
  intros x y _ _ H. lia.
Qed.

Lemma range_down_NoDup (a b : Z) : NoDup (range_down a b).
Proof.
  unfold range_down. apply NoDup_map_NoDup_ForallPairs; [|apply seq_NoDup].
  intros x y _ _ H. lia.
Qed.

Lemma range_snoc (a b : Z) : a <= b -> range a (b + 1) = range a b ++ [b].
Proof.
  intros H. unfold range.
  replace (Z.to_nat (b + 1 - a)) with (S (Z.to_nat (b - a))) by lia.
  rewrite seq_S, map_app. simpl. do 2 f_equal. lia.
Qed.

Lemma range_down_snoc (a b : Z) :
  b <= a -> range_down a (b - 1) = range_down a b ++ [b].
Proof.
  intros H. unfold range_down.
  replace (Z.to_nat (a - (b - 1))) with (S (Z.to_nat (a - b))) by lia.
  rewrite seq_S, map_app. simpl. do 2 f_equal. lia.
Qed.

Lemma range_shift (a b d : Z) :
  range (a + d) (b + d) = map (fun x => x + d) (range a b).
Proof.
  unfold range. rewrite map_map.
  replace (b + d - (a + d)) with (b - a) by lia.
  apply map_ext. intros k. lia.
Qed.

Lemma range_down_shift (a b d : Z) :
  range_down (a + d) (b + d) = map (fun x => x + d) (range_down a b).
Proof.
  unfold range_down. rewrite map_map.
  replace (a + d - (b + d)) with (a - b) by lia.
  apply map_ext. intros k. lia.
Qed.

Lemma copyline_locations_runs (node_type : string) (tc : CopyLine)
  (padding : Z) :
  copyline_locations node_type tc padding
  = runs node_type tc padding
    ++ [node_from_type node_type (fst (center_location tc padding))
          (snd (center_location tc padding) + 1) (nline_of tc)].
Proof.
  unfold copyline_locations, runs, center_location. simpl.
  now rewrite <- !app_assoc.
Qed.

Section RunLengths.

Variable node_type : string.
Variable tc : CopyLine.
Variables I J : Z.

Lemma grow_up_length :
  length (grow_up node_type tc I J)
  = Z.to_nat (4 * (hslot tc - vstart tc)).
Proof.
  unfold grow_up. rewrite length_map, range_down_length. f_equal. lia.
Qed.

Lemma grow_down_length :
  length (grow_down node_type tc I J)
  = Z.to_nat (4 * (vstop tc - hslot tc)).
Proof.
  unfold grow_down. rewrite length_map, range_length. f_equal. lia.
Qed.

Lemma grow_right_length :
  length (grow_right node_type tc I J)
  = Z.to_nat (4 * (hstop tc - vslot tc) - 2).
Proof.
  unfold grow_right. rewrite length_map, range_length. f_equal. lia.
Qed.

End RunLengths.

Lemma to_nat_even (k : Z) : Nat.Even (Z.to_nat (2 * k)).
Proof.
  destruct (Z.le_gt_cases k 0) as [H | H].
  - exists 0%nat. lia.
  - exists (Z.to_nat k). lia.
Qed.

(** X1.  The number of emitted nodes: [4 * (hslot - vstart)] going up,
    [4 * (vstop - hslot)] going down, [4 * (hstop - vslot) - 2] going
    right (each taken as 0 when negative), plus the center.  On a
    well-formed line that extends to the right this is
    [4 * (vstop - vstart) + 4 * (hstop - vslot) - 1]. *)
Theorem X1_node_count (node_type : string) (tc : CopyLine) (padding : Z) :
  length (copyline_locations node_type tc padding)
  = (Z.to_nat (4 * (hslot tc - vstart tc))
     + Z.to_nat (4 * (vstop tc - hslot tc))
     + Z.to_nat (4 * (hstop tc - vslot tc) - 2) + 1)%nat /\
  (vstart tc <= hslot tc <= vstop tc -> vslot tc < hstop tc ->
   Z.of_nat (length (copyline_locations node_type tc padding))
   = 4 * (vstop tc - vstart tc) + 4 * (hstop tc - vslot tc) - 1).
Proof.
  assert (E : length (copyline_locations node_type tc padding)
              = (Z.to_nat (4 * (hslot tc - vstart tc))
                 + Z.to_nat (4 * (vstop tc - hslot tc))
                 + Z.to_nat (4 * (hstop tc - vslot tc) - 2) + 1)%nat).
  { unfold copyline_locations. destruct (center_location tc padding) as [I J].
    rewrite !length_app, grow_up_length, grow_down_length,
      grow_right_length. simpl. lia. }
  split; [exact E|]. intros Hv Hh. rewrite E. lia.
Qed.

Lemma X1_node_count_witness :
  Z.of_nat (length (copyline_locations "WeightedNode"
                      (mkCopyLine 1 2 2 1 3 3) 0))
  = 4 * (3 - 1) + 4 * (3 - 2) - 1.
Proof.
  apply (proj2 (X1_node_count "WeightedNode" (mkCopyLine 1 2 2 1 3 3) 0));
    simpl; lia.
Defined.

(** X2.  Each of the three runs has an even number of nodes, for any
    line whatsoever, so the emitted list (runs plus center) always has an
    odd number of nodes. *)
Theorem X2_even_runs (node_type : string) (tc : CopyLine) (padding : Z) :
  let (I, J) := center_location tc padding in
  Nat.Even (length (grow_up node_type tc I J)) /\
  Nat.Even (length (grow_down node_type tc I J)) /\
  Nat.Even (length (grow_right node_type tc I J)) /\
  Nat.Odd (length (copyline_locations node_type tc padding)).
Proof.
  destruct (center_location tc padding) as [I J] eqn:EC.
  assert (Hu : Nat.Even (length (grow_up node_type tc I J))).
  { rewrite grow_up_length.
    replace (4 * (hslot tc - vstart tc))
      with (2 * (2 * (hslot tc - vstart tc))) by lia.
    apply to_nat_even. }
  assert (Hd : Nat.Even (length (grow_down node_type tc I J))).
  { rewrite grow_down_length.
    replace (4 * (vstop tc - hslot tc))
      with (2 * (2 * (vstop tc - hslot tc))) by lia.
    apply to_nat_even. }
  assert (Hr : Nat.Even (length (grow_right node_type tc I J))).
  { rewrite grow_right_length.
    replace (4 * (hstop tc - vslot tc) - 2)
      with (2 * (2 * (hstop tc - vslot tc) - 1)) by lia.
    apply to_nat_even. }
  repeat split; try assumption.
  unfold copyline_locations. rewrite EC. rewrite !length_app. simpl.
  destruct Hu as [x Hx], Hd as [y Hy], Hr as [z Hz].
  exists (x + y + z)%nat. lia.
Qed.

Lemma row_node_from_type (node_type : string) (i j w : Z) :
  row (node_from_type node_type i j w) = i.
Proof. unfold node_from_type. now destruct (String.eqb node_type _). Qed.

Lemma col_node_from_type (node_type : string) (i j w : Z) :
  col (node_from_type node_type i j w) = j.
Proof. unfold node_from_type. now destruct (String.eqb node_type _). Qed.

Section RunPoints.

Variable node_type : string.
Variable tc : CopyLine.
Variables I J : Z.

(** Where the nodes of each run sit. *)
Lemma grow_up_points (nd : Node) :
  In nd (grow_up node_type tc I J) ->
  col nd = J /\
  I + 4 * (vstart tc - hslot tc) + 1 <= row nd <= I.
Proof.
  unfold grow_up. rewrite in_map_iff. intros (i & <- & Hi).
  apply range_down_In in Hi.
  rewrite row_node_from_type, col_node_from_type. lia.
Qed.

Lemma grow_down_points (nd : Node) :
  In nd (grow_down node_type tc I J) ->
  (row nd = I + 1 /\ col nd = J + 1) \/
  (col nd = J /\ I + 1 <= row nd <= I + 4 * (vstop tc - hslot tc) - 1).
Proof.
  unfold grow_down. rewrite in_map_iff. intros (i & <- & Hi).
  apply range_In in Hi.
  destruct (Z.eqb_spec i I) as [-> | Hne].
  - left. now rewrite row_node_from_type, col_node_from_type.
  - right. rewrite row_node_from_type, col_node_from_type. lia.
Qed.

Lemma grow_right_points (nd : Node) :
  In nd (grow_right node_type tc I J) ->
  row nd = I /\ J + 2 <= col nd <= J + 4 * (hstop tc - vslot tc) - 1.
Proof.
  unfold grow_right. rewrite in_map_iff. intros (j & <- & Hj).
  apply range_In in Hj.
  rewrite row_node_from_type, col_node_from_type. lia.
Qed.

(** Within one run no grid point is used twice. *)
Lemma grow_up_NoDup : NoDup (map loc (grow_up node_type tc I J)).
Proof.
  unfold grow_up. rewrite map_map.
  apply NoDup_map_NoDup_ForallPairs; [|apply range_down_NoDup].
  intros x y _ _. rewrite !loc_node_from_type. intros E. now inversion E.
Qed.

Lemma grow_down_NoDup : NoDup (map loc (grow_down node_type tc I J)).
Proof.
  unfold grow_down. rewrite map_map.
  apply NoDup_map_NoDup_ForallPairs; [|apply range_NoDup].
  intros x y _ _.
  destruct (Z.eqb_spec x I); destruct (Z.eqb_spec y I);
    rewrite !loc_node_from_type; intros E; inversion E; lia.
Qed.

Lemma grow_right_NoDup : NoDup (map loc (grow_right node_type tc I J)).
Proof.
  unfold grow_right. rewrite map_map.
  apply NoDup_map_NoDup_ForallPairs; [|apply range_NoDup].
  intros x y _ _. rewrite !loc_node_from_type. intros E. now inversion E.
Qed.

End RunPoints.

Lemma in_map_loc (p : Z * Z) (l : list Node) :
  In p (map loc l) -> exists nd, In nd l /\ row nd = fst p /\ col nd = snd p.
Proof.
  rewrite in_map_iff. intros (nd & <- & Hin). exists nd. auto.
Qed.

(** X3.  The nodes emitted for one line occupy pairwise distinct grid
    points, whatever the line and the padding. *)
Theorem X3_distinct_points (node_type : string) (tc : CopyLine)
  (padding : Z) :
  NoDup (map loc (copyline_locations node_type tc padding)).
Proof.
  unfold copyline_locations.
  destruct (center_location tc padding) as [I J].
  rewrite !map_app. simpl map.
  apply NoDup_app; [apply grow_up_NoDup | |].
  - apply NoDup_app; [apply grow_down_NoDup | |].
    + apply NoDup_app; [apply grow_right_NoDup | |].
      * repeat constructor. simpl. tauto.
      * intros p Hr [<- | []].
        apply in_map_loc in Hr. destruct Hr as (nd & Hin & Hr & Hc).
        apply grow_right_points in Hin.
        rewrite loc_node_from_type in Hr, Hc. simpl in Hr, Hc. lia.
    + intros p Hd Hrest.
      apply in_map_loc in Hd. destruct Hd as (nd & Hin & Hr & Hc).
      apply grow_down_points in Hin.
      apply in_app_or in Hrest. destruct Hrest as [Hrt | [<- | []]].
      * apply in_map_loc in Hrt. destruct Hrt as (nd' & Hin' & Hr' & Hc').
        apply grow_right_points in Hin'. lia.
      * rewrite loc_node_from_type in Hr, Hc. simpl in Hr, Hc. lia.
  - intros p Hu Hrest.
    apply in_map_loc in Hu. destruct Hu as (nd & Hin & Hr & Hc).
    apply grow_up_points in Hin.
    apply in_app_or in Hrest. destruct Hrest as [Hd | Hrest].
    + apply in_map_loc in Hd. destruct Hd as (nd' & Hin' & Hr' & Hc').
      apply grow_down_points in Hin'. lia.
    + apply in_app_or in Hrest. destruct Hrest as [Hrt | [<- | []]].
      * apply in_map_loc in Hrt. destruct Hrt as (nd' & Hin' & Hr' & Hc').
        apply grow_right_points in Hin'. lia.
      * rewrite loc_node_from_type in Hr, Hc. simpl in Hr, Hc. lia.
Qed.

(** Window of the nodes of a well-formed line. *)
Lemma copyline_locations_window (node_type : string) (tc : CopyLine) (padding : Z)
  (Hwf : well_formed tc) :
  Forall (fun nd =>
            4 * (vstart tc - 1) + padding + 2 <= row nd
              <= 4 * (vstop tc - 1) + padding + 2 /\
            4 * (vslot tc - 1) + padding + 1 <= col nd
              <= 4 * (hstop tc - 1) + padding + 2)
         (copyline_locations node_type tc padding).
Proof.
  destruct Hwf as [Hv Hh].
  unfold copyline_locations, center_location.
  set (I := 4 * (hslot tc - 1) + padding + 2).
  set (J := 4 * (vslot tc - 1) + padding + 1).
  repeat (apply Forall_app; split).
  - apply Forall_forall. intros nd Hin.
    apply grow_up_points in Hin. unfold I, J in *. lia.
  - apply Forall_forall. intros nd Hin.
    assert (Hne : grow_down node_type tc I J <> [])
      by (intros E; rewrite E in Hin; exact Hin).
    assert (Hgt : hslot tc < vstop tc).
    { destruct (Z.lt_ge_cases (hslot tc) (vstop tc)); [assumption|].
      exfalso. apply Hne. apply grow_down_none. lia. }
    apply grow_down_points in Hin. unfold I, J in *. lia.
  - apply Forall_forall. intros nd Hin.
    apply grow_right_points in Hin. unfold I, J in *. lia.
  - repeat constructor;
      rewrite ?row_node_from_type, ?col_node_from_type; unfold I, J; lia.
Qed.


(** X4.  On a well-formed line every emitted node lies in the window the
    slots span: rows from [4 * (vstart - 1) + padding + 2] to
    [4 * (vstop - 1) + padding + 2], columns from
    [4 * (vslot - 1) + padding + 1] to [4 * (hstop - 1) + padding + 2]. *)
Theorem X4_window (node_type : string) (tc : CopyLine) (padding : Z)
  (Hwf : well_formed tc) :
  Forall (fun nd =>
            4 * (vstart tc - 1) + padding + 2 <= row nd
              <= 4 * (vstop tc - 1) + padding + 2 /\
            4 * (vslot tc - 1) + padding + 1 <= col nd
              <= 4 * (hstop tc - 1) + padding + 2)
         (copyline_locations node_type tc padding).
Proof. exact (copyline_locations_window node_type tc padding Hwf). Qed.

Lemma X4_window_witness :
  Forall (fun nd => 4 * (1 - 1) + 0 + 2 <= row nd <= 4 * (3 - 1) + 0 + 2 /\
                    4 * (2 - 1) + 0 + 1 <= col nd <= 4 * (3 - 1) + 0 + 2)
         (copyline_locations "WeightedNode" (mkCopyLine 1 2 2 1 3 3) 0).
Proof.
  apply (X4_window "WeightedNode" (mkCopyLine 1 2 2 1 3 3) 0).
  unfold well_formed. simpl. lia.
Defined.

Lemma filter_none {A : Type} (f : A -> bool) (l : list A) :
  (forall x, In x l -> f x = false) -> filter f l = [].
Proof.
  induction l as [|x l IH]; intros H; simpl; [reflexivity|].
  rewrite (H x (or_introl eq_refl)). apply IH. intros y Hy.
  apply H. now right.
Qed.

Lemma b2z_negb_eqb_same (x : Z) : 1 + b2z (negb (x =? x)) = 1.
Proof. now rewrite Z.eqb_refl. Qed.

Lemma b2z_negb_eqb_other (x y : Z) : x <> y -> 1 + b2z (negb (x =? y)) = 2.
Proof. intros H. apply Z.eqb_neq in H. now rewrite H. Qed.

Section HalfWeights.

Variable node_type : string.
Hypothesis Hweighted : node_type <> "UnWeightedNode"%string.
Variable tc : CopyLine.
Variables I J : Z.

Lemma grow_up_half :
  filter is_half (grow_up node_type tc I J)
  = if vstart tc <? hslot tc
    then [mkNode (I + 4 * (vstart tc - hslot tc) + 1) J (Numeric 1)]
    else [].
Proof.
  destruct (Z.ltb_spec (vstart tc) (hslot tc)) as [Hlt | Hge].
  - unfold grow_up. cbv zeta.
    set (start := I + 4 * (vstart tc - hslot tc) + 1).
    rewrite range_down_snoc by (unfold start; lia).
    rewrite map_app, filter_app. cbn [map].
    rewrite filter_none.
    + rewrite b2z_negb_eqb_same.
      now rewrite (weight_node_from_type_weighted _ _ _ _ Hweighted).
    + intros nd Hin. apply in_map_iff in Hin.
      destruct Hin as (i & <- & Hi). apply range_down_In in Hi.
      rewrite b2z_negb_eqb_other by lia.
      now rewrite (weight_node_from_type_weighted _ _ _ _ Hweighted).
  - rewrite grow_up_none by lia. reflexivity.
Qed.

Lemma grow_down_half :
  filter is_half (grow_down node_type tc I J)
  = if hslot tc <? vstop tc
    then [mkNode (I + 4 * (vstop tc - hslot tc) - 1) J (Numeric 1)]
    else [].
Proof.
  destruct (Z.ltb_spec (hslot tc) (vstop tc)) as [Hlt | Hge].
  - unfold grow_down. cbv zeta.
    set (stop := I + 4 * (vstop tc - hslot tc) - 1).
    rewrite range_snoc by (unfold stop; lia).
    rewrite map_app, filter_app. cbn [map].
    rewrite filter_none.
    + destruct (Z.eqb_spec stop I) as [E | _]; [unfold stop in E; lia|].
      rewrite b2z_negb_eqb_same.
      now rewrite (weight_node_from_type_weighted _ _ _ _ Hweighted).
    + intros nd Hin. apply in_map_iff in Hin.
      destruct Hin as (i & <- & Hi). apply range_In in Hi.
      destruct (Z.eqb_spec i I).
      * now rewrite (weight_node_from_type_weighted _ _ _ _ Hweighted).
      * rewrite b2z_negb_eqb_other by lia.
        now rewrite (weight_node_from_type_weighted _ _ _ _ Hweighted).
  - rewrite grow_down_none by lia. reflexivity.
Qed.

Lemma grow_right_half :
  filter is_half (grow_right node_type tc I J)
  = if vslot tc <? hstop tc
    then [mkNode I (J + 4 * (hstop tc - vslot tc) - 1) (Numeric 1)]
    else [].
Proof.
  destruct (Z.ltb_spec (vslot tc) (hstop tc)) as [Hlt | Hge].
  - unfold grow_right. cbv zeta.
    set (stop := J + 4 * (hstop tc - vslot tc) - 1).
    rewrite range_snoc by (unfold stop; lia).
    rewrite map_app, filter_app. cbn [map].
    rewrite filter_none.
    + rewrite b2z_negb_eqb_same.
      now rewrite (weight_node_from_type_weighted _ _ _ _ Hweighted).
    + intros nd Hin. apply in_map_iff in Hin.
      destruct Hin as (j & <- & Hj). apply range_In in Hj.
      rewrite b2z_negb_eqb_other by lia.
      now rewrite (weight_node_from_type_weighted _ _ _ _ Hweighted).
  - rewrite grow_right_none by lia. reflexivity.
Qed.

(** Every node of a run weighs 1 or 2. *)
Lemma runs_weights_1_2 (p : Z) :
  Forall (fun nd => weight nd = Numeric 1 \/ weight nd = Numeric 2)
         (runs node_type tc p).
Proof.
  unfold runs. destruct (center_location tc p) as [I' J'].
  repeat (apply Forall_app; split); apply Forall_forall; intros nd Hin.
  - unfold grow_up in Hin. apply in_map_iff in Hin.
    destruct Hin as (i & <- & _).
    rewrite (weight_node_from_type_weighted _ _ _ _ Hweighted). simpl.
    destruct (i =? _); auto.
  - unfold grow_down in Hin. apply in_map_iff in Hin.
    destruct Hin as (i & <- & _).
    destruct (i =? I');
      rewrite (weight_node_from_type_weighted _ _ _ _ Hweighted); simpl;
      auto.
    destruct (i =? _); auto.
  - unfold grow_right in Hin. apply in_map_iff in Hin.
    destruct Hin as (j & <- & _).
    rewrite (weight_node_from_type_weighted _ _ _ _ Hweighted). simpl.
    destruct (j =? _); auto.
Qed.

End HalfWeights.

(** X5.  In a weighted variant every node of the three runs weighs 1 or
    2, and the nodes of weight 1 are exactly the free ends of the arms
    the line grows, in emission order: [(4 * (vstart - 1) + padding + 3, J)]
    if it grows up, [(4 * (vstop - 1) + padding + 1, J)] if it grows down,
    [(I, 4 * (hstop - 1) + padding)] if it grows right. *)
Theorem X5_half_weight_ends (node_type : string) (tc : CopyLine)
  (padding : Z) (Hweighted : node_type <> "UnWeightedNode"%string) :
  let I := 4 * (hslot tc - 1) + padding + 2 in
  let J := 4 * (vslot tc - 1) + padding + 1 in
  Forall (fun nd => weight nd = Numeric 1 \/ weight nd = Numeric 2)
         (runs node_type tc padding) /\
  filter is_half (runs node_type tc padding)
  = (if vstart tc <? hslot tc
     then [mkNode (4 * (vstart tc - 1) + padding + 3) J (Numeric 1)]
     else [])
    ++ (if hslot tc <? vstop tc
        then [mkNode (4 * (vstop tc - 1) + padding + 1) J (Numeric 1)]
        else [])
    ++ (if vslot tc <? hstop tc
        then [mkNode I (4 * (hstop tc - 1) + padding) (Numeric 1)]
        else []).
Proof.
  intros I J. split; [now apply runs_weights_1_2|].
  unfold runs, center_location. fold I J.
  rewrite !filter_app, grow_up_half, grow_down_half, grow_right_half
    by assumption.
  replace (I + 4 * (vstart tc - hslot tc) + 1)
    with (4 * (vstart tc - 1) + padding + 3) by (unfold I; lia).
  replace (I + 4 * (vstop tc - hslot tc) - 1)
    with (4 * (vstop tc - 1) + padding + 1) by (unfold I; lia).
  replace (J + 4 * (hstop tc - vslot tc) - 1)
    with (4 * (hstop tc - 1) + padding) by (unfold J; lia).
  reflexivity.
Qed.

Lemma X5_half_weight_ends_witness :
  filter is_half (runs "WeightedNode" (mkCopyLine 1 2 2 1 3 3) 0)
  = [mkNode 3 5 (Numeric 1); mkNode 9 5 (Numeric 1); mkNode 6 8 (Numeric 1)].
Proof.
  apply (proj2 (X5_half_weight_ends "WeightedNode"
                  (mkCopyLine 1 2 2 1 3 3) 0 ltac:(discriminate))).
Defined.

Lemma translate_node_from_type (node_type : string) (d i j w : Z) :
  translate d (node_from_type node_type i j w)
  = node_from_type node_type (i + d) (j + d) w.
Proof.
  unfold node_from_type, translate.
  now destruct (String.eqb node_type _).
Qed.

Lemma eqb_shift (x y d : Z) : (x + d =? y + d) = (x =? y).
Proof.
  destruct (Z.eqb_spec x y); destruct (Z.eqb_spec (x + d) (y + d));
    try reflexivity; lia.
Qed.

Section Translation.

Variable node_type : string.
Variable tc : CopyLine.
Variables I J d : Z.

Lemma grow_up_translate :
  grow_up node_type tc (I + d) (J + d)
  = map (translate d) (grow_up node_type tc I J).
Proof.
  unfold grow_up. cbv zeta.
  replace (I + d + 4 * (vstart tc - hslot tc) + 1 - 1)
    with (I + 4 * (vstart tc - hslot tc) + 1 - 1 + d) by lia.
  rewrite range_down_shift, !map_map. apply map_ext. intros i.
  rewrite translate_node_from_type.
  replace (I + d + 4 * (vstart tc - hslot tc) + 1)
    with (I + 4 * (vstart tc - hslot tc) + 1 + d) by lia.
  now rewrite eqb_shift.
Qed.

Lemma grow_down_translate :
  grow_down node_type tc (I + d) (J + d)
  = map (translate d) (grow_down node_type tc I J).
Proof.
  unfold grow_down. cbv zeta.
  replace (I + d + 4 * (vstop tc - hslot tc) - 1 + 1)
    with (I + 4 * (vstop tc - hslot tc) - 1 + 1 + d) by lia.
  rewrite range_shift, !map_map. apply map_ext. intros i.
  rewrite eqb_shift.
  replace (I + d + 4 * (vstop tc - hslot tc) - 1)
    with (I + 4 * (vstop tc - hslot tc) - 1 + d) by lia.
  rewrite eqb_shift.
  destruct (i =? I); rewrite translate_node_from_type; f_equal; lia.
Qed.

Lemma grow_right_translate :
  grow_right node_type tc (I + d) (J + d)
  = map (translate d) (grow_right node_type tc I J).
Proof.
  unfold grow_right. cbv zeta.
  replace (J + d + 2) with (J + 2 + d) by lia.
  replace (J + d + 4 * (hstop tc - vslot tc) - 1 + 1)
    with (J + 4 * (hstop tc - vslot tc) - 1 + 1 + d) by lia.
  rewrite range_shift, !map_map. apply map_ext. intros j.
  rewrite translate_node_from_type.
  replace (J + d + 4 * (hstop tc - vslot tc) - 1)
    with (J + 4 * (hstop tc - vslot tc) - 1 + d) by lia.
  now rewrite eqb_shift.
Qed.

End Translation.

(** X6.  Padding only translates the output: the nodes emitted with
    padding [p] are those emitted with padding 0, each moved by [p] in
    both coordinates, in the same order and with the same weights. *)
Theorem X6_padding_translates (node_type : string) (tc : CopyLine)
  (padding : Z) :
  copyline_locations node_type tc padding
  = map (translate padding) (copyline_locations node_type tc 0).
Proof.
  unfold copyline_locations, center_location. cbv zeta.
  replace (4 * (hslot tc - 1) + padding + 2)
    with (4 * (hslot tc - 1) + 0 + 2 + padding) by lia.
  replace (4 * (vslot tc - 1) + padding + 1)
    with (4 * (vslot tc - 1) + 0 + 1 + padding) by lia.
  set (I0 := 4 * (hslot tc - 1) + 0 + 2).
  set (J0 := 4 * (vslot tc - 1) + 0 + 1).
  rewrite grow_up_translate, grow_down_translate, grow_right_translate.
  rewrite !map_app. cbn [map]. rewrite translate_node_from_type.
  replace (J0 + padding + 1) with (J0 + 1 + padding) by lia.
  reflexivity.
Qed.

Section Variants.

Variable tc : CopyLine.
Variables I J : Z.

Lemma grow_up_locs (t1 t2 : string) :
  map loc (grow_up t1 tc I J) = map loc (grow_up t2 tc I J).
Proof.
  unfold grow_up. rewrite !map_map. apply map_ext. intros i.
  now rewrite !loc_node_from_type.
Qed.

Lemma grow_down_locs (t1 t2 : string) :
  map loc (grow_down t1 tc I J) = map loc (grow_down t2 tc I J).
Proof.
  unfold grow_down. rewrite !map_map. apply map_ext. intros i.
  destruct (i =? I); now rewrite !loc_node_from_type.
Qed.

Lemma grow_right_locs (t1 t2 : string) :
  map loc (grow_right t1 tc I J) = map loc (grow_right t2 tc I J).
Proof.
  unfold grow_right. rewrite !map_map. apply map_ext. intros j.
  now rewrite !loc_node_from_type.
Qed.

End Variants.

(** X7.  The variant changes weights only: any two node types give the
    same grid points in the same order, and the unweighted variant gives
    every node, center included, the unit weight. *)
Theorem X7_variants_share_points (t1 t2 : string) (tc : CopyLine)
  (padding : Z) :
  map loc (copyline_locations t1 tc padding)
  = map loc (copyline_locations t2 tc padding) /\
  Forall (fun nd => weight nd = ONE_INSTANCE)
         (copyline_locations "UnWeightedNode" tc padding).
Proof.
  split.
  - unfold copyline_locations.
    destruct (center_location tc padding) as [I J].
    rewrite !map_app, (grow_up_locs tc I J t1 t2),
      (grow_down_locs tc I J t1 t2), (grow_right_locs tc I J t1 t2).
    cbn [map]. now rewrite !loc_node_from_type.
  - unfold copyline_locations.
    destruct (center_location tc padding) as [I J].
    repeat (apply Forall_app; split).
    + unfold grow_up. apply Forall_map, Forall_forall. intros i _.
      reflexivity.
    + unfold grow_down. apply Forall_map, Forall_forall. intros i _.
      destruct (i =? I); reflexivity.
    + unfold grow_right. apply Forall_map, Forall_forall. intros j _.
      reflexivity.
    + repeat constructor.
Qed.

(* ================================================================== *)
(** ** Further properties of the block query *)



(** X9.  A returned block never shows a vertex that is not there: each of
    its four sides is the sentinel or the vertex of a line of the lattice
    that bears on the coordinate along that axis. *)
Theorem X9_sides_come_from_lines (L : CrossingLattice) (i j : Z)
  (blk : Block) (Hq : __getitem__ L (IdxTuple [i; j]) = Return blk) :
  (top blk = -1 \/
   exists line, In line (lines L) /\ bears_vertical i j line /\
                top blk = vertex line) /\
  (bottom blk = -1 \/
   exists line, In line (lines L) /\ bears_vertical i j line /\
                bottom blk = vertex line) /\
  (left blk = -1 \/
   exists line, In line (lines L) /\ bears_horizontal i j line /\
                left blk = vertex line) /\
  (right blk = -1 \/
   exists line, In line (lines L) /\ bears_horizontal i j line /\
                right blk = vertex line).
Proof.
  apply getitem_returns_inv in Hq. destruct Hq as [_ ->].
  destruct (block_at_sides L i j) as (-> & -> & -> & ->).
  exact (scan_origin i j (lines L) no_sides).
Qed.

Lemma X9_sides_come_from_lines_witness :
  right (mkBlock 1 1 (-1) 1 0) = -1 \/
  exists line, In line (lines L3) /\ bears_horizontal 2 2 line /\
               right (mkBlock 1 1 (-1) 1 0) = vertex line.
Proof.
  apply (X9_sides_come_from_lines L3 2 2 (mkBlock 1 1 (-1) 1 0) eq_refl).
Defined.

Section UniqueSlot.

Variables i j : Z.
Variable ls : list CopyLine.

(** With pairwise distinct columns the vertical pair is decided by the one
    line in column [j]; with pairwise distinct rows the horizontal pair
    is decided by the one line in row [i]. *)
Lemma scan_unique_column (line : CopyLine) :
  NoDup (map vslot ls) -> In line ls -> vslot line = j ->
  s_top (scan i j ls no_sides)
  = s_top (scan_vertical i j line no_sides) /\
  s_bottom (scan i j ls no_sides)
  = s_bottom (scan_vertical i j line no_sides).
Proof.
  intros Hnd Hin Hj.
  destruct (in_split line ls Hin) as (pre & post & E). subst ls.
  rewrite map_app in Hnd. simpl in Hnd.
  assert (Hpost : Forall (fun l => vslot l <> j) post).
  { apply Forall_forall. intros l Hl E.
    apply NoDup_app_remove_l in Hnd. inversion Hnd as [|? ? Hni _]; subst.
    apply Hni. rewrite <- E. now apply in_map. }
  assert (Hpre : Forall (fun l => vslot l <> j) pre).
  { apply Forall_forall. intros l Hl E.
    apply NoDup_remove_2 in Hnd. apply Hnd.
    apply in_or_app. left. rewrite Hj, <- E. now apply in_map. }
  destruct (scan_split_tb i j line pre post Hpost) as [-> ->].
  destruct (scan_other_columns i j pre no_sides Hpre) as [Et Eb].
  apply scan_vertical_ext; assumption.
Qed.

Lemma scan_unique_row (line : CopyLine) :
  NoDup (map hslot ls) -> In line ls -> hslot line = i ->
  s_left (scan i j ls no_sides)
  = s_left (scan_horizontal i j line no_sides) /\
  s_right (scan i j ls no_sides)
  = s_right (scan_horizontal i j line no_sides).
Proof.
  intros Hnd Hin Hi.
  destruct (in_split line ls Hin) as (pre & post & E). subst ls.
  rewrite map_app in Hnd. simpl in Hnd.
  assert (Hpost : Forall (fun l => hslot l <> i) post).
  { apply Forall_forall. intros l Hl E.
    apply NoDup_app_remove_l in Hnd. inversion Hnd as [|? ? Hni _]; subst.
    apply Hni. rewrite <- E. now apply in_map. }
  assert (Hpre : Forall (fun l => hslot l <> i) pre).
  { apply Forall_forall. intros l Hl E.
    apply NoDup_remove_2 in Hnd. apply Hnd.
    apply in_or_app. left. rewrite Hi, <- E. now apply in_map. }
  destruct (scan_split_lr i j line pre post Hpost) as [-> ->].
  destruct (scan_other_rows i j pre no_sides Hpre) as [El Er].
  apply scan_horizontal_ext; assumption.
Qed.

End UniqueSlot.

Lemma column_line_dec (j : Z) (ls : list CopyLine) :
  (exists line, In line ls /\ vslot line = j) \/
  Forall (fun l => vslot l <> j) ls.
Proof.
  induction ls as [|l ls IH]; [right; constructor|].
  destruct (Z.eq_dec (vslot l) j) as [E | N].
  - left. exists l. simpl. auto.
  - destruct IH as [(line & Hin & E) | HF].
    + left. exists line. simpl. auto.
    + right. now constructor.
Qed.

Lemma row_line_dec (i : Z) (ls : list CopyLine) :
  (exists line, In line ls /\ hslot line = i) \/
  Forall (fun l => hslot l <> i) ls.
Proof.
  induction ls as [|l ls IH]; [right; constructor|].
  destruct (Z.eq_dec (hslot l) i) as [E | N].
  - left. exists l. simpl. auto.
  - destruct IH as [(line & Hin & E) | HF].
    + left. exists line. simpl. auto.
    + right. now constructor.
Qed.

Lemma sides_eq (s1 s2 : sides) :
  s_left s1 = s_left s2 -> s_right s1 = s_right s2 ->
  s_top s1 = s_top s2 -> s_bottom s1 = s_bottom s2 -> s1 = s2.
Proof. destruct s1, s2. simpl. congruence. Qed.

Lemma scan_permutation (i j : Z) (ls ls' : list CopyLine) :
  NoDup (map vslot ls) -> NoDup (map hslot ls) -> Permutation ls ls' ->
  scan i j ls no_sides = scan i j ls' no_sides.
Proof.
  intros Hv Hh Hp.
  assert (Hv' : NoDup (map vslot ls'))
    by (eapply Permutation_NoDup; [apply Permutation_map, Hp | exact Hv]).
  assert (Hh' : NoDup (map hslot ls'))
    by (eapply Permutation_NoDup; [apply Permutation_map, Hp | exact Hh]).
  assert (Etb : s_top (scan i j ls no_sides) = s_top (scan i j ls' no_sides)
                /\ s_bottom (scan i j ls no_sides)
                   = s_bottom (scan i j ls' no_sides)).
  { destruct (column_line_dec j ls) as [(line & Hin & E) | HF].
    - destruct (scan_unique_column i j ls line Hv Hin E) as [-> ->].
      assert (Hin' : In line ls') by (eapply Permutation_in; eassumption).
      destruct (scan_unique_column i j ls' line Hv' Hin' E) as [-> ->].
      auto.
    - assert (HF' : Forall (fun l => vslot l <> j) ls').
      { apply Forall_forall. intros l Hl.
        rewrite Forall_forall in HF. apply HF.
        eapply Permutation_in; [apply Permutation_sym, Hp | exact Hl]. }
      destruct (scan_other_columns i j ls no_sides HF) as [-> ->].
      destruct (scan_other_columns i j ls' no_sides HF') as [-> ->].
      auto. }
  assert (Elr : s_left (scan i j ls no_sides)
                = s_left (scan i j ls' no_sides)
                /\ s_right (scan i j ls no_sides)
                   = s_right (scan i j ls' no_sides)).
  { destruct (row_line_dec i ls) as [(line & Hin & E) | HF].
    - destruct (scan_unique_row i j ls line Hh Hin E) as [-> ->].
      assert (Hin' : In line ls') by (eapply Permutation_in; eassumption).
      destruct (scan_unique_row i j ls' line Hh' Hin' E) as [-> ->].
      auto.
    - assert (HF' : Forall (fun l => hslot l <> i) ls').
      { apply Forall_forall. intros l Hl.
        rewrite Forall_forall in HF. apply HF.
        eapply Permutation_in; [apply Permutation_sym, Hp | exact Hl]. }
      destruct (scan_other_rows i j ls no_sides HF) as [-> ->].
      destruct (scan_other_rows i j ls' no_sides HF') as [-> ->].
      auto. }
  apply sides_eq; tauto.
Qed.

(** X10.  When the lines sit in pairwise distinct columns and pairwise
    distinct rows, the order in which the lattice holds them is
    irrelevant: reordering the list changes the outcome of no query. *)
Theorem X10_line_order_irrelevant (L : CrossingLattice)
  (ls ls' : list CopyLine) (indices : pyindex)
  (Hcols : NoDup (map vslot ls)) (Hrows : NoDup (map hslot ls))
  (Hperm : Permutation ls ls') :
  __getitem__ (with_lines L ls) indices
  = __getitem__ (with_lines L ls') indices.
Proof.
  assert (Hblk : forall i j : Z,
            block_at (with_lines L ls) i j
            = block_at (with_lines L ls') i j).
  { intros i j. unfold block_at. simpl lines.
    now rewrite (scan_permutation i j ls ls' Hcols Hrows Hperm). }
  destruct indices as [[|i [|j [|k elts]]] | k | [i|] [j|] | ];
    try reflexivity; simpl; rewrite Hblk; reflexivity.
Qed.

Lemma X10_line_order_irrelevant_witness :
  __getitem__ (with_lines L3 lines3) (IdxTuple [1; 2])
  = __getitem__ (with_lines L3 (rev lines3)) (IdxTuple [1; 2]).
Proof.
  apply (X10_line_order_irrelevant L3 lines3 (rev lines3) (IdxTuple [1; 2])).
  - simpl. repeat constructor; simpl; intuition lia.
  - simpl. repeat constructor; simpl; intuition lia.
  - apply Permutation_rev.
Defined.

(* ================================================================== *)
(** ** Further properties of the line factory and of its lattice *)

Lemma diagonal_spans (n : Z) (l : list Z) : forall k : Z,
  Forall (fun c => vstart c = 1 /\ vstop c = n /\ hstop c = n)
         (map (diagonal_line n) (enumerate_from k l)).
Proof.
  induction l as [|x l IH]; intros k; simpl; constructor; auto.
Qed.

Lemma diagonal_NoDup (n : Z) (l : list Z) : forall k : Z,
  NoDup (map vslot (map (diagonal_line n) (enumerate_from k l))) /\
  NoDup (map hslot (map (diagonal_line n) (enumerate_from k l))).
Proof.
  induction l as [|x l IH]; intros k; simpl; [split; constructor|].
  pose proof (diagonal_slots n l (k + 1)) as Hs.
  rewrite Forall_forall in Hs.
  destruct (IH (k + 1)) as [Hv Hh].
  split; constructor; try assumption; intros Hin;
    apply in_map_iff in Hin; destruct Hin as (c & E & Hc);
    apply Hs in Hc; lia.
Qed.

(** X11.  Whatever the sequence, the lines the factory returns satisfy
    the data model's invariant ([vstart <= hslot <= vstop],
    [vslot <= hstop]), sit on the diagonal inside [1..n], and occupy
    pairwise distinct columns and rows. *)
Theorem X11_factory_invariants (g : Graph) (vertex_order : list Z) :
  exists ls : list CopyLine,
    create_copylines g vertex_order = Return ls /\
    Forall (fun c => well_formed c /\
                     1 <= vslot c <= len vertex_order /\
                     hslot c = vslot c) ls /\
    NoDup (map vslot ls) /\ NoDup (map hslot ls).
Proof.
  exists (copylines_of vertex_order).
  split; [reflexivity|]. unfold copylines_of, enumerate.
  split; [|apply diagonal_NoDup].
  pose proof (diagonal_slots (len vertex_order) vertex_order 0) as Hs.
  pose proof (diagonal_spans (len vertex_order) vertex_order 0) as Hp.
  rewrite Forall_forall in *. intros c Hc.
  specialize (Hs c Hc). specialize (Hp c Hc).
  unfold well_formed. lia.
Qed.

(** X12.  In the lattice of the default construction the cell at row
    [a + 1], column [b + 1] (vertices [u], [v], neither the sentinel)
    carries the adjacency of [u] and [v] when it lies above the diagonal,
    or on it but not in the last cell; every other cell is not
    applicable.  The strict upper triangle is thus the adjacency matrix
    of the graph in the given order. *)
Theorem X12_adjacency_matrix (g : Graph) (order : list Z) (a b : nat)
  (u v : Z) (L : CrossingLattice)
  (HL : default_lattice g order = Return L)
  (Ha : nth_error order a = Some u)
  (Hb : nth_error order b = Some v)
  (Hu : u <> -1) (Hv : v <> -1) :
  exists blk : Block,
    __getitem__ L (IdxTuple [Z.of_nat a + 1; Z.of_nat b + 1]) = Return blk /\
    connected blk
    = if Nat.ltb a b || (Nat.eqb a b && (Z.of_nat a + 1 <? len order))
      then (if has_edge g u v then 1 else 0)
      else -1.
Proof.
  apply default_lattice_eq in HL. subst L.
  destruct (index_bounds order a b u v Ha Hb) as [Hla Hlb].
  eexists. split.
  { apply getitem_in_bounds, in_bounds_iff. simpl. unfold len. lia. }
  change (connected (block_at _ _ _))
    with (connectivity g (scan (Z.of_nat a + 1) (Z.of_nat b + 1)
                            (copylines_of order) no_sides)).
  unfold connectivity.
  rewrite (default_pick_h order a b u Ha Hlb).
  rewrite (default_pick_v order a b v Hb Hla).
  assert (Hn : Z.of_nat a + 1 <= len order /\ Z.of_nat b + 1 <= len order)
    by (unfold len; lia).
  destruct (Nat.ltb_spec a b); destruct (Nat.leb_spec a b);
    destruct (Nat.eqb_spec a b);
    destruct (Z.eqb_spec (Z.of_nat a + 1) (len order));
    destruct (Z.ltb_spec (Z.of_nat a + 1) (len order));
    destruct (Z.eqb_spec (len order) 1);
    simpl; try lia;
    repeat match goal with
      | |- context [?x =? -1] => destruct (Z.eqb_spec x (-1))
      end; simpl; try congruence; try lia.
Qed.

Lemma X12_adjacency_matrix_witness :
  exists blk : Block,
    __getitem__ L3 (IdxTuple [1; 3]) = Return blk /\ connected blk = 0.
Proof.
  apply (X12_adjacency_matrix G3 [0; 1; 2] 0 2 0 2 L3);
    try reflexivity; discriminate.
Defined.

(** X13.  Emitting the lines the factory returns for [n] vertices keeps
    every node inside the square grid window with rows
    [padding + 2 .. 4 * (n - 1) + padding + 2] and columns
    [padding + 1 .. 4 * (n - 1) + padding + 2]. *)
Theorem X13_default_grid_window (g : Graph) (vertex_order : list Z)
  (ls : list CopyLine) (tc : CopyLine) (node_type : string) (padding : Z)
  (Hls : create_copylines g vertex_order = Return ls)
  (Htc : In tc ls) :
  let n := len vertex_order in
  Forall (fun nd =>
            padding + 2 <= row nd <= 4 * (n - 1) + padding + 2 /\
            padding + 1 <= col nd <= 4 * (n - 1) + padding + 2)
         (copyline_locations node_type tc padding).
Proof.
  intros n. rewrite create_copylines_returns in Hls.
  inversion Hls; subst ls. unfold copylines_of, enumerate in Htc.
  pose proof (diagonal_slots n vertex_order 0) as Hs.
  pose proof (diagonal_spans n vertex_order 0) as Hp.
  rewrite Forall_forall in Hs, Hp.
  specialize (Hs tc Htc). specialize (Hp tc Htc).
  assert (Hwf : well_formed tc) by (unfold well_formed; fold n in Hs; lia).
  eapply Forall_impl; [|apply (copyline_locations_window _ _ _ Hwf)].
  intros nd. cbv beta. destruct Hp as (Hp1 & Hp2 & Hp3).
  rewrite Hp1, Hp2, Hp3. lia.
Qed.

Lemma X13_default_grid_window_witness :
  Forall (fun nd => 0 + 2 <= row nd <= 4 * (3 - 1) + 0 + 2 /\
                    0 + 1 <= col nd <= 4 * (3 - 1) + 0 + 2)
         (copyline_locations "WeightedNode" (mkCopyLine 1 2 2 1 3 3) 0).
Proof.
  apply (X13_default_grid_window G3 [0; 1; 2] lines3
           (mkCopyLine 1 2 2 1 3 3) "WeightedNode" 0 eq_refl).
  simpl. auto.
Defined.

(* ================================================================== *)
(** ** Text rendering *)

Lemma str_int_digit (x : Z) : 0 <= x <= 9 -> str_int x = Return [48 + x].
Proof.
  intros H.
  assert (E : x = 0 \/ x = 1 \/ x = 2 \/ x = 3 \/ x = 4 \/ x = 5 \/ x = 6
              \/ x = 7 \/ x = 8 \/ x = 9) by lia.
  repeat (destruct E as [-> | E]; [reflexivity|]). subst. reflexivity.
Qed.

Lemma uint_codes_inj (d : Decimal.uint) : forall d' : Decimal.uint,
  uint_codes d = uint_codes d' -> d = d'.
Proof.
  induction d as [|r IH|r IH|r IH|r IH|r IH|r IH|r IH|r IH|r IH|r IH];
    intros d' H; destruct d'; simpl in H; try discriminate H;
    try reflexivity; inversion H; f_equal; auto.
Qed.

Lemma uint_codes_nonnil (d : Decimal.uint) :
  d <> Decimal.Nil -> exists c rest, uint_codes d = c :: rest.
Proof.
  intros H. destruct d; simpl; eauto. contradiction.
Qed.

(** [str] of a negative integer: the minus sign and the digits, or
    [ValueError] when there are too many digits. *)
Lemma str_int_negative (p : positive) :
  str_int (Z.neg p)
  = if INT_MAX_STR_DIGITS <? Z.of_nat (decimal_digits (Z.neg p))
    then Raise ValueError
    else Return (45 :: uint_codes (Pos.to_uint p)).
Proof. reflexivity. Qed.

Lemma str_int_negative_text (p : positive) (s : pystr) :
  str_int (Z.neg p) = Return s ->
  s = 45 :: uint_codes (Pos.to_uint p) /\
  exists c rest, s = 45 :: c :: rest.
Proof.
  rewrite str_int_negative.
  destruct (INT_MAX_STR_DIGITS <? _); intros H; inversion H; subst.
  split; [reflexivity|].
  destruct (uint_codes_nonnil _ (DecimalPos.Unsigned.to_uint_nonnil p))
    as (c & rest & E).
  rewrite E. eauto.
Qed.

(** The symbol of a side, by range of the value. *)
Lemma symbol_sentinel : _symbol (-1) = Return [DOT].
Proof. reflexivity. Qed.

Lemma symbol_digit (x : Z) : 0 <= x <= 9 -> _symbol x = Return [48 + x].
Proof.
  intros H. unfold _symbol.
  destruct (Z.eqb_spec x (-1)); [lia|].
  destruct (Z.ltb_spec x 10); [|lia].
  now apply str_int_digit.
Qed.

Lemma symbol_letter (x : Z) :
  10 <= x <= 1114024 -> _symbol x = Return [87 + x].
Proof.
  intros H. unfold _symbol, chr, ord_a.
  replace (97 + (x - 10)) with (87 + x) by lia.
  destruct (Z.eqb_spec x (-1)); [lia|].
  destruct (Z.ltb_spec x 10); [lia|].
  destruct (Z.ltb_spec (87 + x) (-2147483648)); [lia|].
  destruct (Z.ltb_spec 2147483647 (87 + x)); [lia|].
  destruct (Z.leb_spec 0 (87 + x)); [|lia].
  destruct (Z.ltb_spec (87 + x) 1114112); [|lia].
  reflexivity.
Qed.

Lemma symbol_beyond_unicode (x : Z) :
  1114024 < x <= 2147483560 -> _symbol x = Raise ValueError.
Proof.
  intros H. unfold _symbol, chr, ord_a.
  replace (97 + (x - 10)) with (87 + x) by lia.
  destruct (Z.eqb_spec x (-1)); [lia|].
  destruct (Z.ltb_spec x 10); [lia|].
  destruct (Z.ltb_spec (87 + x) (-2147483648)); [lia|].
  destruct (Z.ltb_spec 2147483647 (87 + x)); [lia|].
  destruct (Z.leb_spec 0 (87 + x)); [|lia].
  destruct (Z.ltb_spec (87 + x) 1114112); [lia|].
  reflexivity.
Qed.

Lemma symbol_beyond_c_int (x : Z) :
  2147483560 < x -> _symbol x = Raise OverflowError.
Proof.
  intros H. unfold _symbol, chr, ord_a.
  replace (97 + (x - 10)) with (87 + x) by lia.
  destruct (Z.eqb_spec x (-1)); [lia|].
  destruct (Z.ltb_spec x 10); [lia|].
  destruct (Z.ltb_spec (87 + x) (-2147483648)); [lia|].
  destruct (Z.ltb_spec 2147483647 (87 + x)); [|lia].
  reflexivity.
Qed.

Lemma symbol_below_sentinel (x : Z) : x < -1 -> _symbol x = str_int x.
Proof.
  intros H. unfold _symbol.
  destruct (Z.eqb_spec x (-1)); [lia|].
  destruct (Z.ltb_spec x 10); [reflexivity | lia].
Qed.

Lemma symbol_too_long (x : Z) :
  x < -1 -> too_long x -> _symbol x = Raise ValueError.
Proof.
  intros H Hl. rewrite symbol_below_sentinel by assumption.
  unfold str_int, too_long in *. apply Z.ltb_lt in Hl. now rewrite Hl.
Qed.

Lemma symbol_negative (x : Z) :
  x < -1 -> ~ too_long x ->
  exists c rest, _symbol x = Return (45 :: c :: rest).
Proof.
  intros H Hl. rewrite symbol_below_sentinel by assumption.
  destruct x as [|p|p]; try lia.
  rewrite str_int_negative. unfold too_long in Hl.
  destruct (Z.ltb_spec INT_MAX_STR_DIGITS
              (Z.of_nat (decimal_digits (Z.neg p)))); [contradiction|].
  destruct (uint_codes_nonnil _ (DecimalPos.Unsigned.to_uint_nonnil p))
    as (c & rest & E).
  rewrite E. eauto.
Qed.

Lemma too_long_dec (x : Z) : too_long x \/ ~ too_long x.
Proof. unfold too_long. lia. Qed.

Lemma symbol_single (x : Z) :
  -1 <= x <= 1114024 -> _symbol x = Return [symbol_code x].
Proof.
  intros H. unfold symbol_code.
  destruct (Z.eqb_spec x (-1)) as [-> | Hne]; [reflexivity|].
  destruct (Z.ltb_spec x 10).
  - apply symbol_digit. lia.
  - apply symbol_letter. lia.
Qed.

Lemma symbol_code_range (x : Z) :
  -1 <= x <= 1114024 -> 48 <= symbol_code x.
Proof.
  intros H. unfold symbol_code, DOT.
  destruct (Z.eqb_spec x (-1)); [lia|]. destruct (Z.ltb_spec x 10); lia.
Qed.

(** [_symbol] raises exactly on the values without symbol. *)
Lemma symbol_raises_iff (x : Z) : raises (_symbol x) <-> no_symbol x.
Proof.
  unfold no_symbol. split.
  - intros [e He].
    destruct (Z.le_gt_cases x 1114024) as [Hle | Hgt]; [|lia].
    right.
    destruct (Z.lt_ge_cases x (-1)) as [Hneg | Hge].
    + split; [assumption|].
      destruct (too_long_dec x) as [Hl | Hl]; [assumption|].
      destruct (symbol_negative x Hneg Hl) as (c & rest & E). congruence.
    + rewrite symbol_single in He by lia. discriminate He.
  - intros [Hgt | [Hneg Hl]].
    + destruct (Z.le_gt_cases x 2147483560).
      * exists ValueError. apply symbol_beyond_unicode. lia.
      * exists OverflowError. now apply symbol_beyond_c_int.
    + exists ValueError. now apply symbol_too_long.
Qed.

Lemma symbol_returns (x : Z) :
  ~ no_symbol x -> exists s, _symbol x = Return s.
Proof.
  intros H. destruct (_symbol x) as [s | e] eqn:E; [eauto|].
  exfalso. apply H. apply symbol_raises_iff. now exists e.
Qed.

Example symbol_digit_limit :
  returns (_symbol (- (10 ^ 4300 - 1))) /\
  _symbol (- 10 ^ 4300) = Raise ValueError.
Proof.
  split.
  - unfold returns. vm_compute. eexists. reflexivity.
  - vm_compute. reflexivity.
Qed.

(** X14.  [_symbol] raises exactly on the values above 1114024, where
    [chr] leaves the Unicode range, and on the values below -1 of more
    than 4300 decimal digits, which [str] refuses.  The exception is
    [ValueError] up to 2147483560 and for the long negatives, and
    [OverflowError] from 2147483561 on, where the argument of [chr] no
    longer fits a C int. *)
Theorem X14_symbol_errors (x : Z) :
  (raises (_symbol x) <->
   1114024 < x \/
   (x < -1 /\ INT_MAX_STR_DIGITS < Z.of_nat (decimal_digits x))) /\
  (1114024 < x <= 2147483560 -> _symbol x = Raise ValueError) /\
  (2147483560 < x -> _symbol x = Raise OverflowError) /\
  (x < -1 -> INT_MAX_STR_DIGITS < Z.of_nat (decimal_digits x) ->
   _symbol x = Raise ValueError).
Proof.
  split; [apply symbol_raises_iff|].
  split; [apply symbol_beyond_unicode|].
  split; [apply symbol_beyond_c_int|].
  apply symbol_too_long.
Qed.

Lemma X14_symbol_errors_witness :
  _symbol 1114025 = Raise ValueError /\
  _symbol 2147483561 = Raise OverflowError.
Proof.
  split.
  - apply (proj1 (proj2 (X14_symbol_errors 1114025))). lia.
  - apply (proj1 (proj2 (proj2 (X14_symbol_errors 2147483561)))). lia.
Defined.

(** X15.  Values from 0 to 35 are shown as the base-36 digits [0-9a-z];
    two values for which [_symbol] returns the same string are equal, or
    are -1 and 8814: vertex 8814 is drawn with the dot of an empty
    side. *)
Theorem X15_symbol_ambiguity (x y : Z) :
  (0 <= x <= 35 ->
   _symbol x = Return [if x <? 10 then 48 + x else 97 + (x - 10)]) /\
  (forall s : pystr,
     _symbol x = Return s -> _symbol y = Return s ->
     x = y \/ (x = -1 /\ y = 8814) \/ (x = 8814 /\ y = -1)) /\
  _symbol 8814 = _symbol (-1).
Proof.
  split; [|split; [|reflexivity]].
  - intros H. destruct (Z.ltb_spec x 10).
    + apply symbol_digit. lia.
    + rewrite symbol_letter by lia. do 2 f_equal. lia.
  - intros s Ex Ey.
    assert (Hx : ~ no_symbol x).
    { intros H. apply symbol_raises_iff in H. destruct H as [e He].
      congruence. }
    assert (Hy : ~ no_symbol y).
    { intros H. apply symbol_raises_iff in H. destruct H as [e He].
      congruence. }
    unfold no_symbol in Hx, Hy.
    destruct (Z.lt_ge_cases x (-1)) as [Hxn | Hxp];
      destruct (Z.lt_ge_cases y (-1)) as [Hyn | Hyp].
    + left. rewrite symbol_below_sentinel in Ex, Ey by assumption.
      destruct x as [|p|p]; try lia. destruct y as [|q|q]; try lia.
      apply str_int_negative_text in Ex, Ey.
      destruct Ex as [Ex _], Ey as [Ey _].
      f_equal. apply DecimalPos.Unsigned.to_uint_inj, uint_codes_inj.
      congruence.
    + rewrite symbol_below_sentinel in Ex by assumption.
      destruct x as [|p|p]; try lia.
      apply str_int_negative_text in Ex.
      destruct Ex as (_ & c & rest & Ex).
      rewrite symbol_single in Ey by lia. congruence.
    + rewrite symbol_below_sentinel in Ey by assumption.
      destruct y as [|q|q]; try lia.
      apply str_int_negative_text in Ey.
      destruct Ey as (_ & c & rest & Ey).
      rewrite symbol_single in Ex by lia. congruence.
    + rewrite symbol_single in Ex, Ey by lia.
      assert (E' : symbol_code x = symbol_code y) by congruence.
      unfold symbol_code, DOT in E'.
      destruct (Z.eqb_spec x (-1)); destruct (Z.eqb_spec y (-1));
        destruct (Z.ltb_spec x 10); destruct (Z.ltb_spec y 10); lia.
Qed.

Lemma X15_symbol_ambiguity_witness :
  _symbol 35 = Return [122] /\
  (8814 = -1 \/ (8814 = -1 /\ -1 = 8814) \/ (8814 = 8814 /\ -1 = -1)).
Proof.
  split.
  - apply (proj1 (X15_symbol_ambiguity 35 35)). lia.
  - apply (proj1 (proj2 (X15_symbol_ambiguity 8814 (-1))) [DOT]);
      reflexivity.
Defined.

Lemma get_row_strings_printable (b : Block) :
  printable (top b) -> printable (bottom b) ->
  printable (left b) -> printable (right b) ->
  get_row_strings b
  = Return [ [SPACE; DOT; SPACE; symbol_code (top b); SPACE; DOT];
             [SPACE; symbol_code (left b); SPACE; conn_symbol b; SPACE;
              symbol_code (right b)];
             [SPACE; DOT; SPACE; symbol_code (bottom b); SPACE; DOT] ].
Proof.
  unfold printable. intros Ht Hb Hl Hr. unfold get_row_strings.
  rewrite !symbol_single by assumption. reflexivity.
Qed.

Lemma get_row_strings_raises_iff (b : Block) :
  raises (get_row_strings b) <->
  no_symbol (top b) \/ no_symbol (bottom b) \/
  no_symbol (left b) \/ no_symbol (right b).
Proof.
  rewrite <- !symbol_raises_iff. unfold get_row_strings, raises.
  destruct (_symbol (top b)) as [st | et]; cbn [bind];
    [|split; [left|]; eauto].
  destruct (_symbol (left b)) as [sl | el]; cbn [bind];
    [|split; [right; right; left|]; eauto].
  destruct (_symbol (right b)) as [sr | er]; cbn [bind];
    [|split; [right; right; right|]; eauto].
  destruct (_symbol (bottom b)) as [sb | eb]; cbn [bind];
    [|split; [right; left|]; eauto].
  split.
  - intros [e He]. discriminate He.
  - intros [[e He] | [[e He] | [[e He] | [e He]]]]; discriminate He.
Qed.

(** X16.  A block whose four sides lie in [-1 .. 1114024] is drawn as
    three rows of exactly six characters, the side symbols in the middle
    of the outer rows and at the ends of the middle row, so its text has
    20 characters; drawing a block raises exactly when [_symbol] raises
    on one of its sides, that is when a side exceeds 1114024 or is a
    negative number of more than 4300 digits. *)
Theorem X16_block_rows (b : Block) :
  (printable (top b) -> printable (bottom b) ->
   printable (left b) -> printable (right b) ->
   get_row_strings b
   = Return [ [SPACE; DOT; SPACE; symbol_code (top b); SPACE; DOT];
              [SPACE; symbol_code (left b); SPACE; conn_symbol b; SPACE;
               symbol_code (right b)];
              [SPACE; DOT; SPACE; symbol_code (bottom b); SPACE; DOT] ] /\
   exists s, Block__str__ b = Return s /\ length s = 20%nat) /\
  (raises (get_row_strings b) <->
   no_symbol (top b) \/ no_symbol (bottom b) \/
   no_symbol (left b) \/ no_symbol (right b)).
Proof.
  split; [|apply get_row_strings_raises_iff].
  intros Ht Hb Hl Hr.
  pose proof (get_row_strings_printable b Ht Hb Hl Hr) as E.
  split; [exact E|].
  unfold Block__str__. rewrite E. simpl. eauto.
Qed.

Lemma X16_block_rows_witness :
  exists s, Block__str__ (mkBlock 1 1 (-1) 1 0) = Return s /\
            length s = 20%nat.
Proof.
  apply (proj1 (X16_block_rows (mkBlock 1 1 (-1) 1 0)));
    unfold printable; simpl; lia.
Defined.

Lemma mapM_Forall {A B : Type} (f : A -> outcome B) (P : B -> Prop)
  (l : list A) :
  (forall x, In x l -> exists y, f x = Return y /\ P y) ->
  exists ys, mapM f l = Return ys /\ length ys = length l /\ Forall P ys.
Proof.
  induction l as [|x l IH]; intros H; simpl.
  - exists []. auto.
  - destruct (H x (or_introl eq_refl)) as (y & -> & Hy).
    destruct IH as (ys & -> & Hlen & HF).
    { intros z Hz. apply H. now right. }
    exists (y :: ys). simpl. auto.
Qed.

Lemma join_cons2 (sep p q : pystr) (rest : list pystr) :
  join sep (p :: q :: rest) = p ++ sep ++ join sep (q :: rest).
Proof. reflexivity. Qed.

(** Size and line breaks of a joined text whose parts are all alike. *)
Lemma join_flat (sep : pystr) (m : nat) (parts : list pystr) :
  Forall (flat_text m) parts -> parts <> [] ->
  (length (join sep parts) + length sep
   = length parts * (m + length sep))%nat /\
  (count_newlines (join sep parts) + count_newlines sep
   = length parts * count_newlines sep)%nat.
Proof.
  induction parts as [|p parts IH]; intros HF Hne; [contradiction|].
  inversion HF as [|? ? [Hp1 Hp2] HF']; subst.
  destruct parts as [|q rest].
  - simpl. unfold flat_text in *. lia.
  - rewrite join_cons2. destruct IH as [IH1 IH2]; [assumption|discriminate|].
    unfold count_newlines in *.
    rewrite !length_app, !count_occ_app.
    simpl length in *. lia.
Qed.

Lemma concat_flat (m k : nat) (ls : list (list pystr)) :
  Forall (fun rows => length rows = k /\ Forall (flat_text m) rows) ls ->
  length (concat ls) = (length ls * k)%nat /\
  Forall (flat_text m) (concat ls).
Proof.
  induction ls as [|rows ls IH]; intros HF; simpl; [auto|].
  inversion HF as [|? ? [Hk Hrows] HF']; subst.
  destruct (IH HF') as [IH1 IH2].
  split; [rewrite length_app; lia | now apply Forall_app].
Qed.

Lemma symbol_code_not_newline (x : Z) :
  printable x -> symbol_code x <> NEWLINE.
Proof.
  intros H. pose proof (symbol_code_range x H). unfold NEWLINE. lia.
Qed.

Lemma conn_symbol_not_newline (b : Block) : conn_symbol b <> NEWLINE.
Proof.
  unfold conn_symbol, NEWLINE, DOT, FILLED, HOLLOW.
  destruct (connected b =? -1); [lia|]. destruct (connected b =? 1); lia.
Qed.

Lemma list_index_rows (r0 r1 r2 : pystr) (k : Z) :
  In k (range 0 3) ->
  exists r, list_index [r0; r1; r2] k = Return r /\
            (r = r0 \/ r = r1 \/ r = r2).
Proof.
  intros Hk. apply range_In in Hk.
  assert (E : k = 0 \/ k = 1 \/ k = 2) by lia.
  destruct E as [-> | [-> | ->]]; eexists; (split; [reflexivity|]); auto.
Qed.

Section LatticeText.

Variable L : CrossingLattice.
Hypothesis Hvertices : Forall (fun c => printable (vertex c)) (lines L).

Lemma block_at_printable (i j : Z) :
  printable (top (block_at L i j)) /\
  printable (bottom (block_at L i j)) /\
  printable (left (block_at L i j)) /\
  printable (right (block_at L i j)).
Proof.
  rewrite Forall_forall in Hvertices.
  destruct (block_at_sides L i j) as (-> & -> & -> & ->).
  destruct (scan_origin i j (lines L) no_sides) as (Ht & Hb & Hl & Hr).
  simpl in Ht, Hb, Hl, Hr.
  repeat split;
    match goal with
    | H : ?x = -1 \/ _ |- ?lo <= ?x => destruct H as [-> | (c & Hc & _ & ->)]
    | H : ?x = -1 \/ _ |- ?x <= ?hi => destruct H as [-> | (c & Hc & _ & ->)]
    end; try (unfold printable in *; lia);
    apply Hvertices in Hc; unfold printable in Hc; lia.
Qed.

Lemma cell_text (i j k : Z) :
  in_bounds L i j = true -> In k (range 0 3) ->
  exists r,
    bind (__getitem__ L (IdxTuple [i; j])) (fun block =>
    bind (get_row_strings block) (fun rows => list_index rows k))
    = Return r /\ flat_text 6 r.
Proof.
  intros Hin Hk. rewrite (getitem_in_bounds L i j Hin). cbn [bind].
  destruct (block_at_printable i j) as (Ht & Hb & Hl & Hr).
  rewrite (get_row_strings_printable _ Ht Hb Hl Hr). cbn [bind].
  destruct (list_index_rows
              [SPACE; DOT; SPACE; symbol_code (top (block_at L i j));
               SPACE; DOT]
              [SPACE; symbol_code (left (block_at L i j)); SPACE;
               conn_symbol (block_at L i j); SPACE;
               symbol_code (right (block_at L i j))]
              [SPACE; DOT; SPACE; symbol_code (bottom (block_at L i j));
               SPACE; DOT] k Hk) as (r & Er & Hr').
  exists r. split; [exact Er|].
  pose proof (symbol_code_not_newline _ Ht).
  pose proof (symbol_code_not_newline _ Hb).
  pose proof (symbol_code_not_newline _ Hl).
  pose proof (symbol_code_not_newline _ Hr).
  pose proof (conn_symbol_not_newline (block_at L i j)).
  unfold flat_text, count_newlines.
  destruct Hr' as [-> | [-> | ->]]; (split; [reflexivity|]);
    repeat (rewrite count_occ_cons_neq
              by (unfold SPACE, DOT, NEWLINE in *; congruence));
    reflexivity.
Qed.

End LatticeText.

Section LatticeTextSize.

Variable L : CrossingLattice.
Hypothesis Hheight : 1 <= height L.
Hypothesis Hwidth : 1 <= width L.
Hypothesis Hvertices : Forall (fun c => printable (vertex c)) (lines L).

Let w := Z.to_nat (width L).
Let h := Z.to_nat (height L).

Lemma lattice_text_row_flat (i k : Z) :
  In i (range 1 (height L + 1)) -> In k (range 0 3) ->
  exists r, lattice_text_row L i k = Return r /\ flat_text (7 * w - 1) r.
Proof.
  intros Hi Hk. apply range_In in Hi. unfold lattice_text_row.
  destruct (mapM_Forall
              (fun j =>
                 bind (__getitem__ L (IdxTuple [i; j])) (fun block =>
                 bind (get_row_strings block) (fun rows =>
                 list_index rows k)))
              (flat_text 6) (range 1 (width L + 1)))
    as (ys & -> & Hlen & HF).
  { intros j Hj. apply range_In in Hj.
    apply (cell_text L Hvertices); [|exact Hk].
    apply in_bounds_iff. lia. }
  cbn [bind]. eexists. split; [reflexivity|].
  rewrite range_length in Hlen.
  assert (Hne : ys <> []) by (intros ->; simpl in Hlen; lia).
  destruct (join_flat [SPACE] 6 ys HF Hne) as [E1 E2].
  unfold flat_text.
  assert (Hs : count_newlines [SPACE] = 0%nat) by reflexivity.
  rewrite Hs in E2. simpl length in E1. unfold w. lia.
Qed.

Lemma lattice_text_rows_flat :
  exists result,
    mapM (fun i => mapM (lattice_text_row L i) (range 0 3))
         (range 1 (height L + 1)) = Return result /\
    length (concat result) = (h * 3)%nat /\
    Forall (flat_text (7 * w - 1)) (concat result).
Proof.
  destruct (mapM_Forall
              (fun i => mapM (lattice_text_row L i) (range 0 3))
              (fun rows => length rows = 3%nat /\
                           Forall (flat_text (7 * w - 1)) rows)
              (range 1 (height L + 1)))
    as (result & E & Hlen & HF).
  { intros i Hi.
    destruct (mapM_Forall (lattice_text_row L i) (flat_text (7 * w - 1))
                (range 0 3)) as (rows & Er & Hl & Hrows).
    { intros k Hk. now apply lattice_text_row_flat. }
    exists rows. rewrite range_length in Hl. auto. }
  exists result. split; [exact E|].
  rewrite range_length in Hlen.
  destruct (concat_flat (7 * w - 1) 3 result HF) as [C1 C2].
  split; [|exact C2]. rewrite C1, Hlen. unfold h. f_equal. lia.
Qed.

End LatticeTextSize.

(** X17.  The text of a lattice with positive height and width whose
    line vertices all lie in [-1 .. 1114024] has [3 * height] lines (that
    is [3 * height - 1] line breaks) of [7 * width - 1] characters each,
    [21 * height * width - 1] characters in all; rendering it raises
    nothing, every cell it queries being in bounds. *)
Theorem X17_lattice_text_size (L : CrossingLattice)
  (Hheight : 1 <= height L) (Hwidth : 1 <= width L)
  (Hvertices : Forall (fun c => printable (vertex c)) (lines L)) :
  exists s : pystr,
    CrossingLattice__str__ L = Return s /\
    Z.of_nat (length s) = 21 * height L * width L - 1 /\
    Z.of_nat (count_newlines s) = 3 * height L - 1.
Proof.
  destruct (lattice_text_rows_flat L Hheight Hwidth Hvertices)
    as (result & E & Hlen & HF).
  unfold CrossingLattice__str__. rewrite E. cbn [bind].
  eexists. split; [reflexivity|].
  assert (Hne : concat result <> []).
  { intros E0. rewrite E0 in Hlen. simpl in Hlen. lia. }
  destruct (join_flat [NEWLINE] _ _ HF Hne) as [E1 E2].
  assert (Hs : count_newlines [NEWLINE] = 1%nat) by reflexivity.
  rewrite Hs in E2. simpl length in E1. rewrite Hlen in E1, E2.
  set (w := Z.to_nat (width L)) in *.
  set (h := Z.to_nat (height L)) in *.
  assert (Hw : (7 * w - 1 + 1 = 7 * w)%nat) by (unfold w; lia).
  rewrite Hw in E1.
  assert (Ewz : Z.of_nat w = width L) by (unfold w; lia).
  assert (Ehz : Z.of_nat h = height L) by (unfold h; lia).
  rewrite <- Ewz, <- Ehz. split; nia.
Qed.

Lemma X17_lattice_text_size_witness :
  exists s : pystr,
    CrossingLattice__str__ L3 = Return s /\
    Z.of_nat (length s) = 21 * 3 * 3 - 1 /\
    Z.of_nat (count_newlines s) = 3 * 3 - 1.
Proof.
  apply (X17_lattice_text_size L3); simpl; try lia.
  repeat constructor; unfold printable; simpl; lia.
Defined.

Lemma mapM_const {A B : Type} (f : A -> outcome B) (c : B) (l : list A) :
  (forall x, In x l -> f x = Return c) ->
  mapM f l = Return (repeat c (length l)).
Proof.
  induction l as [|x l IH]; intros H; simpl; [reflexivity|].
  rewrite (H x (or_introl eq_refl)). cbn [bind].
  rewrite IH by (intros z Hz; apply H; now right). reflexivity.
Qed.

Lemma concat_repeat_empty_rows (n : nat) :
  concat (repeat [[]; []; []] n) = repeat (@nil Z) (3 * n).
Proof.
  induction n as [|n IH]; [reflexivity|].
  replace (3 * S n)%nat with (S (S (S (3 * n)))) by lia.
  simpl. now rewrite IH.
Qed.

Lemma join_empty_parts (c : Z) (n : nat) :
  join [c] (repeat (@nil Z) (S n)) = repeat c n.
Proof.
  induction n as [|n IH]; [reflexivity|].
  exact (f_equal (cons c) IH).
Qed.

Lemma lattice_text_row_no_columns (L : CrossingLattice) (i k : Z) :
  width L <= 0 -> lattice_text_row L i k = Return [].
Proof.
  intros H. unfold lattice_text_row.
  rewrite range_empty by lia. reflexivity.
Qed.

(** X18.  Degenerate sizes: a lattice of height 0 or less renders as the
    empty text without querying anything; one of positive height and
    width 0 or less renders as [3 * height] empty lines, that is
    [3 * height - 1] line breaks and nothing else. *)
Theorem X18_empty_lattice_text (L : CrossingLattice) :
  (height L <= 0 -> CrossingLattice__str__ L = Return []) /\
  (1 <= height L -> width L <= 0 ->
   CrossingLattice__str__ L
   = Return (repeat NEWLINE (Z.to_nat (3 * height L - 1)))).
Proof.
  split.
  - intros H. unfold CrossingLattice__str__.
    rewrite (range_empty 1 (height L + 1)) by lia. reflexivity.
  - intros Hh Hw. unfold CrossingLattice__str__.
    assert (E : mapM (fun i => mapM (lattice_text_row L i) (range 0 3))
                  (range 1 (height L + 1))
                = Return (repeat [[]; []; []]
                            (length (range 1 (height L + 1))))).
    { apply mapM_const. intros i _. change (range 0 3) with [0; 1; 2].
      simpl. rewrite !lattice_text_row_no_columns by assumption.
      reflexivity. }
    rewrite E. cbn [bind].
    rewrite range_length, concat_repeat_empty_rows.
    replace (3 * Z.to_nat (height L + 1 - 1))%nat
      with (S (Z.to_nat (3 * height L - 1))) by lia.
    now rewrite join_empty_parts.
Qed.

Lemma X18_empty_lattice_text_witness :
  CrossingLattice__str__ (mkCrossingLattice 0 1 [] G3)
  = Return [NEWLINE; NEWLINE].
Proof.
  apply (proj2 (X18_empty_lattice_text (mkCrossingLattice 0 1 [] G3)));
    simpl; lia.
Defined.

Section RunPointSets.

Variable node_type : string.
Variable tc : CopyLine.
Variables I J : Z.

Lemma grow_up_covers (r c : Z) :
  c = J -> I + 4 * (vstart tc - hslot tc) + 1 <= r <= I ->
  In (r, c) (map loc (grow_up node_type tc I J)).
Proof.
  intros -> Hr. unfold grow_up. rewrite map_map. apply in_map_iff.
  exists r. split; [apply loc_node_from_type|].
  apply range_down_In. lia.
Qed.

Lemma grow_down_covers (r c : Z) :
  (r = I + 1 /\ c = J + 1 /\ hslot tc < vstop tc) \/
  (c = J /\ I + 1 <= r <= I + 4 * (vstop tc - hslot tc) - 1) ->
  In (r, c) (map loc (grow_down node_type tc I J)).
Proof.
  intros H. unfold grow_down. rewrite map_map. apply in_map_iff.
  destruct H as [(-> & -> & Hg) | (-> & Hr)].
  - exists I. rewrite Z.eqb_refl. split; [apply loc_node_from_type|].
    apply range_In. lia.
  - exists r. destruct (Z.eqb_spec r I); [lia|].
    split; [apply loc_node_from_type|]. apply range_In. lia.
Qed.

Lemma grow_right_covers (r c : Z) :
  r = I -> J + 2 <= c <= J + 4 * (hstop tc - vslot tc) - 1 ->
  In (r, c) (map loc (grow_right node_type tc I J)).
Proof.
  intros -> Hc. unfold grow_right. rewrite map_map. apply in_map_iff.
  exists c. split; [apply loc_node_from_type|].
  apply range_In. lia.
Qed.

Lemma grow_down_turn (nd : Node) :
  In nd (grow_down node_type tc I J) -> hslot tc < vstop tc.
Proof.
  intros Hin.
  destruct (Z.lt_ge_cases (hslot tc) (vstop tc)); [assumption|].
  rewrite grow_down_none in Hin by lia. contradiction.
Qed.

End RunPointSets.

(** X19.  The grid points of a line form a T: with [(I, J)] the center
    location, a point is emitted iff it is in column [J] between rows
    [4 * (vstart - 1) + padding + 3] and [4 * (vstop - 1) + padding + 1],
    (row [I] only when the line grows up), or is the turn
    [(I + 1, J + 1)] of a line that grows down, or is in row [I] between
    columns [J + 2] and [4 * (hstop - 1) + padding], or is the center
    [(I, J + 1)]. *)
Theorem X19_T_shape (node_type : string) (tc : CopyLine) (padding : Z)
  (r c : Z) :
  let I := 4 * (hslot tc - 1) + padding + 2 in
  let J := 4 * (vslot tc - 1) + padding + 1 in
  In (r, c) (map loc (copyline_locations node_type tc padding)) <->
  (c = J /\ 4 * (vstart tc - 1) + padding + 3 <= r <= I) \/
  (c = J /\ I + 1 <= r <= 4 * (vstop tc - 1) + padding + 1) \/
  (r = I + 1 /\ c = J + 1 /\ hslot tc < vstop tc) \/
  (r = I /\ J + 2 <= c <= 4 * (hstop tc - 1) + padding) \/
  (r = I /\ c = J + 1).
Proof.
  intros I J. unfold copyline_locations, center_location. fold I J.
  rewrite !map_app, !in_app_iff. cbn [map In].
  rewrite loc_node_from_type.
  split.
  - intros [Hu | [Hd | [Hr | [E | []]]]].
    + apply in_map_loc in Hu. destruct Hu as (nd & Hin & Hr & Hc).
      apply grow_up_points in Hin. simpl in Hr, Hc. unfold I in *. lia.
    + apply in_map_loc in Hd. destruct Hd as (nd & Hin & Hr & Hc).
      pose proof (grow_down_turn _ _ _ _ _ Hin) as Hg.
      apply grow_down_points in Hin. simpl in Hr, Hc. unfold I in *. lia.
    + apply in_map_loc in Hr. destruct Hr as (nd & Hin & Hr & Hc).
      apply grow_right_points in Hin. simpl in Hr, Hc. unfold J in *. lia.
    + inversion E. lia.
  - intros [[Hc Hr] | [[Hc Hr] | [(Hr & Hc & Hg) | [[Hr Hc] | [Hr Hc]]]]].
    + left. apply grow_up_covers; [assumption | unfold I; lia].
    + right. left. apply grow_down_covers. right. unfold I in *. lia.
    + right. left. apply grow_down_covers. left. auto.
    + right. right. left.
      apply grow_right_covers; [assumption | unfold J; lia].
    + right. right. right. left. now subst.
Qed.
